(** * Usagi shopping list (usagi-shopping-list.c): model and verification

    The program keeps a growable array of C strings, reads lines from
    standard input through a 1024-byte buffer, and interprets lines that
    start with '/' as commands.

    Modelling conventions.
    - A C string is the list of its bytes before the terminating NUL.
    - [size_t] values are natural numbers: every subtraction in the source
      is guarded ([index < count], [count > 0]) and the additions stay
      below the array capacity, so none of them wraps.
    - [long] is the 64-bit type of LP64 platforms.
    - [malloc], [calloc], [realloc] and [strdup] succeed; the
      out-of-memory exits are outside the model.
    - Pointers to item strings are modelled by the strings themselves:
      a stored string is never written to after [strdup]. *)

From stdpp Require Import base decidable option list gmap strings.
From Stdlib Require Import Ascii ZArith Lia DecimalString.
From Stdlib Require DecimalNat DecimalFacts.
From Equations Require Import Equations.

Local Open Scope nat_scope.

(** ** Characters and C strings *)

(** A string literal of the source. *)
Definition lit (s : string) : list ascii := String.list_ascii_of_string s.

(** The bytes '\0', '\n' and '\r'. *)
Definition NUL : ascii := ascii_of_nat 0.
Definition NL : ascii := ascii_of_nat 10.
Definition CR : ascii := ascii_of_nat 13.

(** [isspace] in the "C" locale: space, \t, \n, \v, \f, \r. *)
Definition isspace (c : ascii) : bool :=
  let n := nat_of_ascii c in
  (n =? 32) || ((9 <=? n) && (n <=? 13)).

(** The decimal digits '0' to '9'. *)
Definition isdigit (c : ascii) : bool :=
  let n := nat_of_ascii c in (48 <=? n) && (n <=? 57).

(** [a == b] on bytes. *)
Definition ascii_eqb (a b : ascii) : bool := bool_decide (a = b).

(** The bytes of a buffer up to its first NUL: what [strlen], [strcmp],
    [strdup] and ["%s"] see. *)
Fixpoint c_str (buf : list ascii) : list ascii :=
  match buf with
  | [] => []
  | c :: rest => if ascii_eqb c NUL then [] else c :: c_str rest
  end.

(** [rtrim]: the loop steps [n] down from [strlen s], cutting the string
    at [n-1] while that byte is a newline, carriage return or space. *)
Definition rtrim_char (c : ascii) : bool :=
  ascii_eqb c NL || ascii_eqb c CR || isspace c.

Fixpoint rtrim_loop (n : nat) (s : list ascii) : list ascii :=
  match n with
  | 0 => take 0 s
  | S m =>
      match s !! m with
      | Some c => if rtrim_char c then rtrim_loop m s else take (S m) s
      | None => take (S m) s
      end
  end.

Definition rtrim (s : list ascii) : list ascii := rtrim_loop (length s) s.

(** ** Loops over an index *)

(** [for (size_t i = start; i < stop; ++i) body] *)
Fixpoint for_loop {St : Type} (n i : nat) (body : nat → St → St) (s : St) : St :=
  match n with
  | 0 => s
  | S n' => for_loop n' (S i) body (body i s)
  end.

Definition for_range {St : Type} (start stop : nat) (body : nat → St → St) (s : St) : St :=
  for_loop (stop - start) start body s.

(** ** The shopping list *)

Definition INITIAL_CAPACITY : nat := 8.
Definition BUFFER_SIZE : nat := 1024.

(** [items] is the heap array of [capacity] pointers; a slot is [None]
    when it holds NULL or was never written. *)
Record ShoppingList := mkList {
  items : list (option (list ascii));
  count : nat;
  capacity : nat
}.

Definition create_list : ShoppingList :=
  {| items := replicate INITIAL_CAPACITY None;
     count := 0;
     capacity := INITIAL_CAPACITY |}.

(** [realloc] keeps the old slots and resizes the array to the new
    capacity. *)
Definition ensure_capacity (l : ShoppingList) : ShoppingList :=
  if decide (capacity l ≤ count l) then
    let cap := capacity l * 2 in
    {| items := resize cap None (items l); count := count l; capacity := cap |}
  else l.

(** The argument is [None] for a NULL pointer. *)
Definition add_item (l : ShoppingList) (item : option (list ascii)) : ShoppingList :=
  match item with
  | None => l
  | Some [] => l
  | Some s =>
      let l1 := ensure_capacity l in
      {| items := <[count l1 := Some s]> (items l1);
         count := S (count l1);
         capacity := capacity l1 |}
  end.

(** The slot [arr[i]], NULL when out of range. *)
Definition slot (arr : list (option (list ascii))) (i : nat) : option (list ascii) :=
  default None (arr !! i).

(** The items as the user sees them: slots [0 .. count-1]. *)
Definition contents (l : ShoppingList) : list (option (list ascii)) :=
  take (count l) (items l).

(** The array is dense: [count] slots, all holding a string, within the
    allocated capacity. *)
Definition dense (l : ShoppingList) : Prop :=
  count l ≤ capacity l ∧ length (items l) = capacity l ∧ 0 < capacity l ∧
  Forall is_Some (contents l).

(** The strings stored in slots [0 .. count-1]. *)
Definition texts (l : ShoppingList) : list (list ascii) :=
  omap id (contents l).

(** ** The outside world: output streams and files *)

Record FileSystem := mkFS {
  fs_data : gmap (list ascii) (list ascii);
  fs_fail : gmap (list ascii) (list ascii)
}.

Record World := mkWorld {
  w_stdout : list ascii;
  w_stderr : list ascii;
  w_fs : FileSystem
}.

Definition print (s : list ascii) (w : World) : World :=
  {| w_stdout := w_stdout w ++ s; w_stderr := w_stderr w; w_fs := w_fs w |}.

Definition eprint (s : list ascii) (w : World) : World :=
  {| w_stdout := w_stdout w; w_stderr := w_stderr w ++ s; w_fs := w_fs w |}.

(** ["%zu"] *)
Definition fmt_zu (n : nat) : list ascii :=
  lit (NilZero.string_of_uint (Nat.to_uint n)).

(** ["%s"] of a slot; glibc prints "(null)" for a NULL pointer. *)
Definition fmt_s (p : option (list ascii)) : list ascii :=
  match p with Some s => s | None => lit "(null)" end.

(** [list->items[i] = list->items[i+1]] *)
Definition shift_body (i : nat) (arr : list (option (list ascii))) :=
  <[i := slot arr (i + 1)]> arr.

(** The loop runs while [i + 1 < count], that is for [i] in
    [index .. count-2]. *)
Definition remove_item (l : ShoppingList) (index : nat) (w : World) : ShoppingList * World :=
  if decide (count l ≤ index) then (l, print (lit "Invalid index" ++ [NL]) w)
  else
    let shifted := for_range index (count l - 1) shift_body (items l) in
    ({| items := shifted; count := count l - 1; capacity := capacity l |}, w).

Definition print_list (l : ShoppingList) (w : World) : World :=
  if decide (count l = 0) then print (lit "(shopping list is empty)" ++ [NL]) w
  else
    for_range 0 (count l)
      (λ i w, print (fmt_zu (i + 1) ++ lit ". " ++ fmt_s (slot (items l) i) ++ [NL]) w)
      (print (lit "Your shopping list:" ++ [NL]) w).

(** ** Streams and files *)

(** [fgets] stores at most [room] bytes and stops after a newline; the
    result is the bytes stored and the rest of the stream. *)
Fixpoint fgets_read (room : nat) (stream : list ascii) : list ascii * list ascii :=
  match room, stream with
  | 0, _ => ([], stream)
  | _, [] => ([], [])
  | S r, c :: rest =>
      if ascii_eqb c NL then ([c], rest)
      else let '(got, rem) := fgets_read r rest in (c :: got, rem)
  end.

(** [fgets(buf, size, stream)]: [None] is the NULL returned at end of
    input when no byte was read. *)
Definition fgets (size : nat) (stream : list ascii) : option (list ascii * list ascii) :=
  match stream with
  | [] => None
  | _ => Some (fgets_read (size - 1) stream)
  end.

(** [fs_fail] lists the paths that cannot be opened, with the reason the
    operating system gives ([strerror (errno)]). *)
Definition fopen_error (fs : FileSystem) (name : list ascii) : option (list ascii) :=
  fs_fail fs !! name.

(** [fopen (name, "w")]: the file is created or truncated. *)
Definition fopen_w (fs : FileSystem) (name : list ascii) : list ascii + FileSystem :=
  match fopen_error fs name with
  | Some reason => inl reason
  | None => inr {| fs_data := <[name := []]> (fs_data fs); fs_fail := fs_fail fs |}
  end.

(** [fopen (name, "r")]: the contents of the file. *)
Definition fopen_r (fs : FileSystem) (name : list ascii) : list ascii + list ascii :=
  match fopen_error fs name with
  | Some reason => inl reason
  | None =>
      match fs_data fs !! name with
      | Some data => inr data
      | None => inl (lit "No such file or directory")
      end
  end.

(** Bytes written to an open file are appended to it. *)
Definition fwrite (name : list ascii) (s : list ascii) (fs : FileSystem) : FileSystem :=
  {| fs_data := alter (λ data, data ++ s) name (fs_data fs); fs_fail := fs_fail fs |}.

Definition set_fs (fs : FileSystem) (w : World) : World :=
  {| w_stdout := w_stdout w; w_stderr := w_stderr w; w_fs := fs |}.

(** [perror (msg)] *)
Definition perror (msg reason : list ascii) (w : World) : World :=
  eprint (msg ++ lit ": " ++ reason ++ [NL]) w.

Definition save_to_file (l : ShoppingList) (filename : list ascii) (w : World) : World :=
  match fopen_w (w_fs w) filename with
  | inl reason => perror (lit "Failed to open file") reason w
  | inr fs =>
      let fs' :=
        for_range 0 (count l)
          (λ i fs, fwrite filename (fmt_s (slot (items l) i) ++ [NL]) fs) fs in
      print (lit "Saved " ++ fmt_zu (count l) ++ lit " items to '" ++ filename
             ++ lit "'" ++ [NL]) (set_fs fs' w)
  end.

(** A value with the equation that gives it, kept for the termination
    proofs of the reading loops. *)
Definition inspect {A} (a : A) : {b | a = b} := exist _ a eq_refl.

(** A successful [fgets] takes at least one byte off the stream, so the
    loops that read until end of input terminate. *)
Lemma fgets_read_length room : ∀ stream got rest,
  fgets_read room stream = (got, rest) →
  length got ≤ room ∧ stream = got ++ rest.
Proof.
  induction room as [|r IH]; intros [|c s] got rest; simpl; intros H;
    try (injection H as <- <-; simpl; split; [lia|done]).
  destruct (ascii_eqb c NL).
  - injection H as <- <-. simpl. split; [lia|done].
  - destruct (fgets_read r s) as [g rm] eqn:E. injection H as <- <-.
    destruct (IH _ _ _ E) as [? ->]. simpl. split; [lia|done].
Qed.

Lemma fgets_read_progress room c s :
  0 < room → 0 < length (fgets_read room (c :: s)).1.
Proof.
  destruct room as [|r]; [lia|]. intros _. simpl.
  destruct (ascii_eqb c NL); [simpl; lia|].
  destruct (fgets_read r s). simpl. lia.
Qed.

Lemma fgets_shorter stream buf rest :
  fgets BUFFER_SIZE stream = Some (buf, rest) → length rest < length stream.
Proof.
  destruct stream as [|c s]; [done|]. unfold fgets.
  assert (Hroom : 0 < BUFFER_SIZE - 1) by (unfold BUFFER_SIZE; lia).
  revert Hroom. generalize (BUFFER_SIZE - 1). intros room Hroom [= H].
  pose proof (fgets_read_progress room c s Hroom) as Hp.
  rewrite H in Hp. simpl in Hp.
  apply fgets_read_length in H as [_ ->].
  rewrite length_app. lia.
Qed.

(** The [while (fgets (...))] loop of [load_from_file]. *)
Equations? load_loop (f : list ascii) (l : ShoppingList) : ShoppingList
  by wf (length f) lt :=
  load_loop f l with inspect (fgets BUFFER_SIZE f) := {
    | exist _ None _ => l
    | exist _ (Some (buf, rest)) H =>
        let s := rtrim (c_str buf) in
        match s with
        | [] => load_loop rest l
        | _ => load_loop rest (add_item l (Some s))
        end }.
Proof. all: by eapply fgets_shorter. Qed.

Definition load_from_file (l : ShoppingList) (filename : list ascii) (w : World)
  : ShoppingList * World :=
  match fopen_r (w_fs w) filename with
  | inl reason => (l, perror (lit "Failed to open file") reason w)
  | inr f =>
      let l' := load_loop f l in
      (l', print (lit "Loaded items from '" ++ filename ++ lit "' (now "
                  ++ fmt_zu (count l') ++ lit " items)" ++ [NL]) w)
  end.

(** ** The command interpreter *)

Definition TAB : ascii := ascii_of_nat 9.

(** The delimiters of [strtok (..., " \t")]. *)
Definition is_delim (c : ascii) : bool :=
  ascii_eqb c " "%char || ascii_eqb c TAB.

Fixpoint skip_delims (s : list ascii) : list ascii :=
  match s with
  | c :: r => if is_delim c then skip_delims r else s
  | [] => []
  end.

(** The token that starts at [s], and the position saved for the next
    call (after the delimiter that ended the token). *)
Fixpoint token (s : list ascii) : list ascii * list ascii :=
  match s with
  | [] => ([], [])
  | c :: r =>
      if is_delim c then ([], r)
      else let '(t, rest) := token r in (c :: t, rest)
  end.

(** [strtok]: [None] is the NULL returned when only delimiters remain. *)
Definition strtok (s : list ascii) : option (list ascii * list ascii) :=
  match skip_delims s with
  | [] => None
  | s1 => Some (token s1)
  end.

Definition LONG_MAX : Z := 2 ^ 63 - 1.
Definition LONG_MIN : Z := - 2 ^ 63.

Fixpoint skip_space (s : list ascii) : list ascii :=
  match s with
  | c :: r => if isspace c then skip_space r else s
  | [] => []
  end.

Definition digit_val (c : ascii) : Z := Z.of_nat (nat_of_ascii c) - 48.

Fixpoint strtol_digits (acc : Z) (s : list ascii) : Z :=
  match s with
  | c :: r => if isdigit c then strtol_digits (acc * 10 + digit_val c) r else acc
  | [] => acc
  end.

(** The optional sign in front of the digits: whether it is '-', and
    the bytes after it. *)
Definition strtol_sign (s : list ascii) : bool * list ascii :=
  match s with
  | c :: r =>
      if ascii_eqb c "-"%char then (true, r)
      else if ascii_eqb c "+"%char then (false, r)
      else (false, s)
  | [] => (false, s)
  end.

(** [strtol (s, NULL, 10)]: leading white space, an optional sign, then
    the longest run of digits; 0 when there is no digit; the value is
    clamped to the range of [long]. *)
Definition strtol (s : list ascii) : Z :=
  let '(neg, s2) := strtol_sign (skip_space s) in
  let v := strtol_digits 0 s2 in
  if neg then Z.max LONG_MIN (- v) else Z.min LONG_MAX v.

(** [strcmp (a, b) == 0] *)
Definition streq (a : list ascii) (b : string) : bool := bool_decide (a = lit b).

(** The [while (list->count) remove_item (list, 0)] loop of /clear. *)
Equations? clear_loop (l : ShoppingList) (w : World) : ShoppingList * World
  by wf (count l) lt :=
  clear_loop l w with inspect (count l) := {
    | exist _ 0 _ => (l, w)
    | exist _ (S n) H => clear_loop (remove_item l 0 w).1 (remove_item l 0 w).2 }.
Proof. unfold remove_item. destruct (decide (count l ≤ 0)); simpl; lia. Qed.

Definition help_text : list ascii :=
  lit "Commands:" ++ [NL]
  ++ lit "  /view            - show list" ++ [NL]
  ++ lit "  /remove INDEX    - remove item by number" ++ [NL]
  ++ lit "  /save FILE       - save list to file" ++ [NL]
  ++ lit "  /load FILE       - load items from file (appends)" ++ [NL]
  ++ lit "  /clear           - remove all items" ++ [NL]
  ++ lit "  /quit            - quit immediately" ++ [NL].

Definition EXIT_SUCCESS : Z := 0.

(** A call either returns its [int] result with the list and the world
    it leaves, or ends the process through [exit]. *)
Inductive cmd_result :=
| Returned (ret : Z) (l : ShoppingList) (w : World)
| Exited (status : Z) (w : World).

Definition cmd_remove (l : ShoppingList) (saved : list ascii) (w : World) : ShoppingList * World :=
  match strtok saved with
  | None => (l, print (lit "Usage: /remove INDEX" ++ [NL]) w)
  | Some (arg, _) =>
      let idx := strtol arg in
      if decide (idx ≤ 0)%Z then (l, print (lit "Specify a positive index" ++ [NL]) w)
      else remove_item l (Z.to_nat (idx - 1)) w
  end.

Definition try_handle_command (l : ShoppingList) (input : list ascii) (w : World) : cmd_result :=
  match input with
  | c :: _ =>
      if negb (ascii_eqb c "/"%char) then Returned 0 l w
      else
        let tmp := take (BUFFER_SIZE - 1) input in
        match strtok tmp with
        | None => Returned 1 l w
        | Some (cmd, saved) =>
            if streq cmd "/view" then Returned 1 l (print_list l w)
            else if streq cmd "/remove" then
              let '(l', w') := cmd_remove l saved w in Returned 1 l' w'
            else if streq cmd "/save" then
              match strtok saved with
              | None => Returned 1 l (print (lit "Usage: /save filename" ++ [NL]) w)
              | Some (arg, _) => Returned 1 l (save_to_file l arg w)
              end
            else if streq cmd "/load" then
              match strtok saved with
              | None => Returned 1 l (print (lit "Usage: /load filename" ++ [NL]) w)
              | Some (arg, _) =>
                  let '(l', w') := load_from_file l arg w in Returned 1 l' w'
              end
            else if streq cmd "/clear" then
              let '(l', w') := clear_loop l w in
              Returned 1 l' (print (lit "Cleared the list" ++ [NL]) w')
            else if streq cmd "/help" then Returned 1 l (print help_text w)
            else if streq cmd "/quit" then
              Exited EXIT_SUCCESS (print (lit "Goodbye!" ++ [NL]) w)
            else
              Returned 1 l (print (lit "Unknown command. Type /help for commands." ++ [NL]) w)
        end
  | [] => Returned 0 l w
  end.

(** ** The interaction loop *)

(** Which of the two [for (;;)] loops of [main] is reading. *)
Inductive loop_state := AwaitingItem | AwaitingConfirmation.

(** The loops end at the label [done] or through [exit]. *)
Inductive run_result :=
| Done (l : ShoppingList) (w : World)
| Quit (status : Z) (w : World).

Definition item_prompt : list ascii :=
  lit "Usagi: What do you want to add? " ++ [NL] ++ lit "> ".

Definition confirm_prompt : list ascii :=
  lit "Usagi: Anything else? (y/n) " ++ [NL] ++ lit "> ".

Definition first_is (s : list ascii) (c : ascii) : bool :=
  match s with
  | x :: _ => ascii_eqb x c
  | [] => false
  end.

Equations? interact (st : loop_state) (input : list ascii) (l : ShoppingList) (w : World)
  : run_result by wf (length input) lt :=
  interact AwaitingItem input l w with inspect (fgets BUFFER_SIZE input) := {
    | exist _ None _ => Done l (print item_prompt w)
    | exist _ (Some (buf, rest)) H =>
        let w1 := print item_prompt w in
        let s := rtrim (c_str buf) in
        match s with
        | [] => interact AwaitingItem rest l (print (lit "(no input)" ++ [NL]) w1)
        | _ =>
            match try_handle_command l s w1 with
            | Exited status w2 => Quit status w2
            | Returned ret l2 w2 =>
                if decide (ret = 0)%Z then
                  interact AwaitingConfirmation rest (add_item l2 (Some s))
                    (print (lit "Added: " ++ s ++ [NL]) w2)
                else interact AwaitingItem rest l2 w2
            end
        end };
  interact AwaitingConfirmation input l w with inspect (fgets BUFFER_SIZE input) := {
    | exist _ None _ => Done l (print confirm_prompt w)
    | exist _ (Some (buf, rest)) H =>
        let w1 := print confirm_prompt w in
        let s := rtrim (c_str buf) in
        match s with
        | [] =>
            interact AwaitingConfirmation rest l
              (print (lit "Please answer y or n." ++ [NL]) w1)
        | _ =>
            if first_is s "y"%char || first_is s "Y"%char then
              interact AwaitingItem rest l w1
            else if first_is s "n"%char || first_is s "N"%char then Done l w1
            else if first_is s "/"%char then
              match try_handle_command l s w1 with
              | Exited status w2 => Quit status w2
              | Returned ret l2 w2 =>
                  if decide (ret = 0)%Z then
                    interact AwaitingConfirmation rest l2
                      (print (lit "Please answer y or n or enter a command starting with /."
                              ++ [NL]) w2)
                  else interact AwaitingConfirmation rest l2 w2
              end
            else
              interact AwaitingConfirmation rest l
                (print (lit "Please answer y or n. You can also use /view, /save, /help, etc."
                        ++ [NL]) w1)
        end }.
Proof. all: by eapply fgets_shorter. Qed.

Definition banner : list ascii :=
  lit "Welcome to Usagi's Shopping List!" ++ [NL]
  ++ lit "Type an item to add it. Type /help for commands." ++ [NL] ++ [NL].

(** [main]: the exit status and the world the process leaves behind. *)
Definition main (stdin : list ascii) (fs : FileSystem) : Z * World :=
  let w0 := print banner {| w_stdout := []; w_stderr := []; w_fs := fs |} in
  match interact AwaitingItem stdin create_list w0 with
  | Quit status w => (status, w)
  | Done l w => (0%Z, print_list l (print ([NL] ++ lit "Final list:" ++ [NL]) w))
  end.

(** * Properties and sample data used in the statements *)

(** The string ends in a byte that is not white space. *)
Definition ends_in_text (s : list ascii) : bool :=
  match last s with
  | Some c => negb (isspace c)
  | None => false
  end.

(** No byte of the string is NUL. *)
Definition no_nul (s : list ascii) : Prop := Forall (λ c, c ≠ NUL) s.

(** No byte of the string is a newline. *)
Definition no_newline (s : list ascii) : Prop := Forall (λ c, c ≠ NL) s.

(** A C string without newline that ends in a byte other than white
    space and fits the line buffer. *)
Definition storable (s : list ascii) : Prop :=
  no_nul s ∧ no_newline s ∧ ends_in_text s = true ∧ length s ≤ 1023.

(** One line per string, each ended by a newline. *)
Definition file_lines (ts : list (list ascii)) : list ascii :=
  concat ((λ s, s ++ [NL]) <$> ts).

(** The number of newline bytes of a file. *)
Definition line_count (f : list ascii) : nat :=
  length (filter (λ c, c = NL) f).

(** The file system after the items of [l] were written to [name]. *)
Definition saved_fs (l : ShoppingList) (name : list ascii) (fs : FileSystem) : FileSystem :=
  {| fs_data := <[name := file_lines (texts l)]> (fs_data fs); fs_fail := fs_fail fs |}.

#[global] Instance dense_dec l : Decision (dense l).
Proof. unfold dense. apply _. Defined.

#[global] Instance storable_dec s : Decision (storable s).
Proof. unfold storable, no_nul, no_newline. apply _. Defined.

(** No file exists and none is refused. *)
Definition empty_fs : FileSystem := {| fs_data := ∅; fs_fail := ∅ |}.

(** Nothing printed yet, on the empty file system. *)
Definition quiet : World := {| w_stdout := []; w_stderr := []; w_fs := empty_fs |}.

(** The list [milk, eggs, tea]. *)
Definition sample_list : ShoppingList :=
  add_item (add_item (add_item create_list (Some (lit "milk"))) (Some (lit "eggs")))
    (Some (lit "tea")).

(** The list whose one item is "a" followed by a space. *)
Definition list_a_space : ShoppingList := add_item create_list (Some (lit "a ")).

(** The list [apples, bread]. *)
Definition apples_bread : ShoppingList :=
  add_item (add_item create_list (Some (lit "apples"))) (Some (lit "bread")).

(** Every byte is white space (the empty string included). *)
Definition blank (s : list ascii) : Prop := Forall (λ c, isspace c = true) s.

(** Dense, and every stored string is non-empty. *)
Definition items_nonempty (l : ShoppingList) : Prop :=
  dense l ∧ Forall (λ s, s ≠ []) (texts l).

#[global] Instance items_nonempty_dec l : Decision (items_nonempty l).
Proof. unfold items_nonempty. apply _. Defined.

(** The prompt printed before a line is read. *)
Definition prompt_of (st : loop_state) : list ascii :=
  match st with
  | AwaitingItem => item_prompt
  | AwaitingConfirmation => confirm_prompt
  end.

(** The first byte is a decimal digit. *)
Definition starts_with_digit (s : list ascii) : bool :=
  match s with
  | c :: _ => isdigit c
  | [] => false
  end.

(** The bytes at which [strtol] expects digits: after the white space
    and the sign it skips. *)
Definition digits_position (s : list ascii) : list ascii :=
  (strtol_sign (skip_space s)).2.

(** The number written by a run of decimal digits. *)
Definition decimal (ds : list ascii) : Z :=
  fold_left (λ acc c, acc * 10 + digit_val c)%Z ds 0%Z.

(** What [perror] leaves after a failed [fopen]. *)
Definition open_failed (reason : list ascii) (w : World) : World :=
  perror (lit "Failed to open file") reason w.

(** A world in which ro.txt cannot be opened. *)
Definition locked : World :=
  {| w_stdout := []; w_stderr := [];
     w_fs := {| fs_data := ∅;
                fs_fail := {[ lit "ro.txt" := lit "Permission denied" ]} |} |}.

(** The line printed at the label [done]. *)
Definition final_header : list ascii := [NL] ++ lit "Final list:" ++ [NL].

(** The input of the scenario: milk, y, eggs, n. *)
Definition milk_eggs_input : list ascii :=
  lit "milk" ++ [NL] ++ lit "y" ++ [NL] ++ lit "eggs" ++ [NL] ++ lit "n" ++ [NL].


(** Dense, and every stored string is [storable]. *)
Definition well_stored (l : ShoppingList) : Prop :=
  dense l ∧ Forall storable (texts l).

(** [add_item] called with each string of [ss] in turn. *)
Definition add_all (l : ShoppingList) (ss : list (list ascii)) : ShoppingList :=
  foldl (λ l s, add_item l (Some s)) l ss.

(** The lines ["1. first"], ["2. second"], ... *)
Definition numbered_lines (ts : list (list ascii)) : list ascii :=
  concat (imap (λ i s, fmt_zu (i + 1) ++ lit ". " ++ s ++ [NL]) ts).

(** Bytes that are all delimiters of [strtok]. *)
Definition delims (s : list ascii) : Prop := Forall (λ c, is_delim c = true) s.

(** Bytes none of which is a delimiter of [strtok]. *)
Definition word (s : list ascii) : Prop := Forall (λ c, is_delim c = false) s.

(** The rest of a line is empty or starts with a delimiter. *)
Definition ends_word (tail : list ascii) : Prop :=
  match tail with
  | [] => True
  | d :: _ => is_delim d = true
  end.

(** The position [strtok] saves when a token is followed by [tail]. *)
Definition after_word (tail : list ascii) : list ascii := drop 1 tail.

(** The first token of a line, as [try_handle_command] finds it. *)
Definition command_word (input : list ascii) : option (list ascii) :=
  fst <$> strtok (take (BUFFER_SIZE - 1) input).

#[global] Instance delims_dec s : Decision (delims s).
Proof. unfold delims. apply _. Defined.

#[global] Instance word_dec s : Decision (word s).
Proof. unfold word. apply _. Defined.

#[global] Instance ends_word_dec tail : Decision (ends_word tail).
Proof. destruct tail; simpl; apply _. Defined.

(** The stream is empty or its last byte is a newline. *)
Definition complete_lines (f : list ascii) : Prop := f = [] ∨ last f = Some NL.

(** The input of a user who types each item of [ts] and answers y. *)
Definition dialogue (ts : list (list ascii)) : list ascii :=
  concat ((λ t, t ++ [NL] ++ lit "y" ++ [NL]) <$> ts).

(** An item as it can be typed on one line: [storable], shorter than the
    buffer, and not a command. *)
Definition plain_item (t : list ascii) : Prop :=
  storable t ∧ length t < 1023 ∧ first_is t "/"%char = false.

#[global] Instance plain_item_dec t : Decision (plain_item t).
Proof. unfold plain_item. apply _. Defined.

(** * Verification *)

(** Closed decidable statements are settled by evaluating their decision
    procedure. *)
Ltac by_decision := apply (bool_decide_unpack _); vm_compute; exact I.

(** ** The array and the shift loop of [remove_item] *)

Lemma slot_lookup (arr : list (option (list ascii))) i x :
  arr !! i = Some x → slot arr i = x.
Proof. unfold slot. by intros ->. Qed.

Lemma shift_loop_spec n : ∀ i (arr : list (option (list ascii))),
  i + n < length arr →
  for_loop n i shift_body arr
  = take i arr ++ take n (drop (S i) arr) ++ drop (i + n) arr.
Proof.
  induction n as [|n IH]; intros i arr Hlen; simpl.
  - rewrite Nat.add_0_r. by rewrite take_drop.
  - destruct (lookup_lt_is_Some_2 arr (S i)) as [x Hx]; [lia|].
    rewrite IH by (unfold shift_body; rewrite length_insert; lia).
    unfold shift_body. rewrite Nat.add_1_r, (slot_lookup _ _ _ Hx).
    rewrite take_insert_lt by lia.
    rewrite !drop_insert_lt by lia.
    assert (Hi : i < length (take (S i) arr)) by (rewrite length_take; lia).
    rewrite (insert_take_drop _ _ _ Hi).
    rewrite take_take, Nat.min_l by lia.
    rewrite (drop_ge (take (S i) arr)) by (rewrite length_take; lia).
    rewrite (drop_S arr x (S i) Hx). simpl.
    rewrite <- app_assoc. simpl.
    by replace (i + S n) with (S i + n) by lia.
Qed.

Lemma for_range_shift (arr : list (option (list ascii))) i n :
  i ≤ n → n < length arr →
  for_range i n shift_body arr = take i arr ++ take (n - i) (drop (S i) arr) ++ drop n arr.
Proof.
  intros Hi Hn. unfold for_range. rewrite shift_loop_spec by lia.
  by replace (i + (n - i)) with n by lia.
Qed.

Lemma length_contents l : count l ≤ length (items l) → length (contents l) = count l.
Proof. intros H. unfold contents. rewrite length_take. lia. Qed.

Lemma dense_length l : dense l → length (contents l) = count l.
Proof. intros (?&?&?&?). apply length_contents. lia. Qed.

Lemma all_some_omap (xs : list (option (list ascii))) :
  Forall is_Some xs → xs = Some <$> omap id xs.
Proof.
  induction 1 as [|x xs [s ->] _ IH]; [done|].
  change (Some s :: xs = Some s :: (Some <$> omap id xs)). by f_equal.
Qed.

Lemma dense_contents l : dense l → contents l = Some <$> texts l.
Proof. intros (_&_&_&H). by apply all_some_omap. Qed.

Lemma remove_item_contents l i w :
  count l ≤ length (items l) → i < count l →
  contents (remove_item l i w).1 = take i (contents l) ++ drop (S i) (contents l).
Proof.
  intros Hlen Hi. unfold remove_item.
  destruct (decide (count l ≤ i)) as [|_]; [lia|]. unfold contents. simpl.
  rewrite for_range_shift by lia.
  rewrite take_take, Nat.min_l by lia.
  rewrite take_app_ge; rewrite length_take; [|lia].
  rewrite Nat.min_l by lia. f_equal.
  rewrite take_app_le by (rewrite length_take, length_drop; lia).
  rewrite take_take, Nat.min_l by lia.
  rewrite take_drop_commute. f_equal. f_equal. lia.
Qed.

Lemma remove_item_dense l i w : dense l → dense (remove_item l i w).1.
Proof.
  intros Hd. destruct (decide (count l ≤ i)) as [Hge|Hlt].
  { unfold remove_item. by destruct (decide (count l ≤ i)). }
  pose proof Hd as (Hc & Hl & Hp & Hall).
  unfold dense. rewrite remove_item_contents by lia.
  unfold remove_item. destruct (decide (count l ≤ i)); [lia|]. simpl.
  rewrite for_range_shift by lia.
  repeat split; try lia.
  - rewrite !length_app, !length_take, !length_drop. lia.
  - apply Forall_app. split; [by apply Forall_take | by apply Forall_drop].
Qed.

(** C1. For a dense list and a 0-based index [i]: when [i < count],
    [remove_item] deletes exactly the element at position [i] (the
    elements before it keep their positions, every later element moves
    down by one, in the same order), decreases [count] by exactly 1 and
    prints nothing; when [i >= count] the list is returned unchanged and
    "Invalid index" is printed. *)
Theorem remove_item_spec (l : ShoppingList) (i : nat) (w : World) :
  dense l →
  (i < count l →
     (remove_item l i w).2 = w ∧
     S (count (remove_item l i w).1) = count l ∧
     contents (remove_item l i w).1 = take i (contents l) ++ drop (S i) (contents l) ∧
     (∀ j, j < i → contents (remove_item l i w).1 !! j = contents l !! j) ∧
     (∀ j, i ≤ j → contents (remove_item l i w).1 !! j = contents l !! (S j)) ∧
     dense (remove_item l i w).1)
  ∧ (count l ≤ i →
     remove_item l i w = (l, print (lit "Invalid index" ++ [NL]) w)).
Proof.
  intros Hd. pose proof (dense_length l Hd) as Hlen.
  pose proof Hd as (Hc & Hl & _). split.
  - intros Hi.
    assert (Hcont := remove_item_contents l i w ltac:(lia) Hi).
    split; [|split; [|split; [done|split; [|split]]]].
    + unfold remove_item. by destruct (decide (count l ≤ i)); [lia|].
    + unfold remove_item. destruct (decide (count l ≤ i)); simpl; lia.
    + intros j Hj. rewrite Hcont.
      rewrite lookup_app_l by (rewrite length_take; lia).
      by rewrite lookup_take_lt.
    + intros j Hj. rewrite Hcont.
      rewrite lookup_app_r; rewrite length_take, Nat.min_l by lia; [|lia].
      rewrite lookup_drop. f_equal. lia.
    + by apply remove_item_dense.
  - intros Hi. unfold remove_item. by destruct (decide (count l ≤ i)); [|lia].
Qed.

Lemma remove_item_spec_witness :
  dense sample_list ∧
  contents (remove_item sample_list 1 quiet).1 = [Some (lit "milk"); Some (lit "tea")] ∧
  remove_item sample_list 3 quiet = (sample_list, print (lit "Invalid index" ++ [NL]) quiet).
Proof.
  assert (Hd : dense sample_list) by by_decision.
  destruct (remove_item_spec sample_list 1 quiet Hd) as [Hin _].
  destruct (remove_item_spec sample_list 3 quiet Hd) as [_ Hout].
  split; [exact Hd|]. split.
  - destruct Hin as (_ & _ & -> & _); [vm_compute; lia|]. reflexivity.
  - apply Hout. vm_compute. lia.
Defined.

(** ** Appending with [add_item] *)

Lemma ensure_capacity_spec l :
  dense l →
  let l1 := ensure_capacity l in
  count l1 = count l ∧ contents l1 = contents l ∧
  length (items l1) = capacity l1 ∧ count l1 < capacity l1.
Proof.
  intros (Hc & Hl & Hp & _). unfold ensure_capacity.
  destruct (decide (capacity l ≤ count l)); simpl; [|repeat split; lia].
  repeat split; try lia.
  - unfold contents. simpl. rewrite take_resize_le by lia.
    rewrite resize_le by lia. done.
  - by rewrite length_resize.
Qed.

Lemma add_item_nonempty l c s :
  dense l →
  count (add_item l (Some (c :: s))) = S (count l) ∧
  contents (add_item l (Some (c :: s))) = contents l ++ [Some (c :: s)] ∧
  dense (add_item l (Some (c :: s))).
Proof.
  intros Hd. pose proof (ensure_capacity_spec l Hd) as (Hcnt & Hcont & Hlen & Hroom).
  pose proof Hd as (_ & _ & _ & Hall).
  set (l1 := ensure_capacity l) in *.
  assert (Hc : contents (add_item l (Some (c :: s))) = contents l ++ [Some (c :: s)]).
  { unfold contents. simpl. fold l1.
    rewrite (take_S_r _ _ (Some (c :: s))) by (apply list_lookup_insert_eq; lia).
    rewrite take_insert_ge by lia. f_equal. exact Hcont. }
  split; [simpl; fold l1; lia|]. split; [done|].
  unfold dense. rewrite Hc. simpl. fold l1. rewrite length_insert.
  repeat split; try lia.
  apply Forall_app. split; [done|]. by repeat constructor.
Qed.

Lemma add_item_dense l item : dense l → dense (add_item l item).
Proof.
  intros Hd. destruct item as [[|c s]|]; [done| |done].
  by apply add_item_nonempty.
Qed.

Lemma add_item_texts l c s :
  dense l → texts (add_item l (Some (c :: s))) = texts l ++ [c :: s].
Proof.
  intros Hd. unfold texts.
  destruct (add_item_nonempty l c s Hd) as (_ & -> & _).
  by rewrite omap_app.
Qed.

Lemma create_list_dense : dense create_list.
Proof. unfold dense, create_list, INITIAL_CAPACITY. simpl. repeat split; [lia..|constructor]. Qed.

(** ** Unfolding the input loops *)

Lemma load_loop_eq f l :
  load_loop f l =
  match fgets BUFFER_SIZE f with
  | None => l
  | Some (buf, rest) =>
      match rtrim (c_str buf) with
      | [] => load_loop rest l
      | s => load_loop rest (add_item l (Some s))
      end
  end.
Proof.
  simp load_loop.
  destruct (inspect (fgets BUFFER_SIZE f)) as [[[buf rest]|] H]; simpl; rewrite H;
    [|done].
  by destruct (rtrim (c_str buf)).
Qed.

Lemma clear_loop_eq l w :
  clear_loop l w =
  if decide (count l = 0) then (l, w)
  else clear_loop (remove_item l 0 w).1 (remove_item l 0 w).2.
Proof.
  simp clear_loop.
  destruct (inspect (count l)) as [[|n] H]; cbn [clear_loop_unfold_clause_1];
    destruct (decide (count l = 0)); try done; try lia.
  by simp clear_loop.
Qed.

Lemma interact_item_eq input l w :
  interact AwaitingItem input l w =
  match fgets BUFFER_SIZE input with
  | None => Done l (print item_prompt w)
  | Some (buf, rest) =>
      let w1 := print item_prompt w in
      match rtrim (c_str buf) with
      | [] => interact AwaitingItem rest l (print (lit "(no input)" ++ [NL]) w1)
      | s =>
          match try_handle_command l s w1 with
          | Exited status w2 => Quit status w2
          | Returned ret l2 w2 =>
              if decide (ret = 0)%Z then
                interact AwaitingConfirmation rest (add_item l2 (Some s))
                  (print (lit "Added: " ++ s ++ [NL]) w2)
              else interact AwaitingItem rest l2 w2
          end
      end
  end.
Proof.
  simp interact.
  destruct (inspect (fgets BUFFER_SIZE input)) as [[[buf rest]|] H];
    cbn [interact_unfold_clause_1]; rewrite H; [|done].
  by destruct (rtrim (c_str buf)).
Qed.

Lemma interact_confirm_eq input l w :
  interact AwaitingConfirmation input l w =
  match fgets BUFFER_SIZE input with
  | None => Done l (print confirm_prompt w)
  | Some (buf, rest) =>
      let w1 := print confirm_prompt w in
      match rtrim (c_str buf) with
      | [] =>
          interact AwaitingConfirmation rest l
            (print (lit "Please answer y or n." ++ [NL]) w1)
      | s =>
          if first_is s "y"%char || first_is s "Y"%char then
            interact AwaitingItem rest l w1
          else if first_is s "n"%char || first_is s "N"%char then Done l w1
          else if first_is s "/"%char then
            match try_handle_command l s w1 with
            | Exited status w2 => Quit status w2
            | Returned ret l2 w2 =>
                if decide (ret = 0)%Z then
                  interact AwaitingConfirmation rest l2
                    (print (lit "Please answer y or n or enter a command starting with /."
                            ++ [NL]) w2)
                else interact AwaitingConfirmation rest l2 w2
            end
          else
            interact AwaitingConfirmation rest l
              (print (lit "Please answer y or n. You can also use /view, /save, /help, etc."
                      ++ [NL]) w1)
      end
  end.
Proof.
  simp interact.
  destruct (inspect (fgets BUFFER_SIZE input)) as [[[buf rest]|] H];
    cbn [interact_unfold_clause_2]; rewrite H; [|done].
  by destruct (rtrim (c_str buf)).
Qed.

(** ** Trimming *)

Lemma rtrim_char_isspace c : rtrim_char c = isspace c.
Proof. destruct c as [[] [] [] [] [] [] [] []]; reflexivity. Qed.

Lemma rtrim_loop_app n : ∀ s t, n ≤ length s → rtrim_loop n (s ++ t) = rtrim_loop n s.
Proof.
  induction n as [|n IH]; intros s t Hn; simpl.
  - by rewrite !take_0.
  - rewrite lookup_app_l by lia.
    destruct (s !! n) as [c|] eqn:E.
    + destruct (rtrim_char c); [apply IH; lia|].
      by rewrite take_app_le by lia.
    + apply lookup_ge_None in E. lia.
Qed.

Lemma rtrim_snoc s c :
  rtrim (s ++ [c]) = if isspace c then rtrim s else s ++ [c].
Proof.
  unfold rtrim. rewrite length_app, Nat.add_1_r. simpl.
  rewrite list_lookup_middle by done. rewrite rtrim_char_isspace.
  destruct (isspace c).
  - by apply rtrim_loop_app.
  - rewrite take_ge; [done|]. rewrite length_app. simpl. lia.
Qed.

Lemma rtrim_fixed s : ends_in_text s = true → rtrim s = s.
Proof.
  induction s as [|c s _] using rev_ind; [done|]. unfold ends_in_text.
  rewrite last_snoc. intros H. rewrite rtrim_snoc. by destruct (isspace c).
Qed.

Lemma rtrim_blank s : Forall (λ c, isspace c = true) s → rtrim s = [].
Proof.
  induction s as [|c s IH] using rev_ind; [done|].
  intros [Hs Hc]%Forall_app. rewrite rtrim_snoc.
  apply Forall_inv in Hc. simpl in Hc. rewrite Hc. by apply IH.
Qed.

Lemma rtrim_result s : rtrim s = [] ∨ ends_in_text (rtrim s) = true.
Proof.
  induction s as [|c s IH] using rev_ind; [by left|].
  rewrite rtrim_snoc. destruct (isspace c) eqn:E; [done|].
  right. unfold ends_in_text. rewrite last_snoc. by rewrite E.
Qed.

Lemma rtrim_prefix s : ∃ t, s = rtrim s ++ t ∧ Forall (λ c, isspace c = true) t.
Proof.
  induction s as [|c s (t & Ht & Hall)] using rev_ind; [by exists []|].
  rewrite rtrim_snoc. destruct (isspace c) eqn:E.
  - exists (t ++ [c]). split; [by rewrite app_assoc, <- Ht|].
    apply Forall_app. split; [done|]. by constructor.
  - exists []. by rewrite app_nil_r.
Qed.

Lemma rtrim_keeps_head c s :
  isspace c = false → ∃ t, rtrim (c :: s) = c :: t.
Proof.
  intros Hc. induction s as [|d s (t & Ht)] using rev_ind.
  - exists []. change [c] with ([] ++ [c]). by rewrite rtrim_snoc, Hc.
  - change (c :: s ++ [d]) with ((c :: s) ++ [d]). rewrite rtrim_snoc.
    destruct (isspace d); eauto.
Qed.

(** ** C strings *)

Lemma c_str_no_nul s : no_nul s → c_str s = s.
Proof.
  induction 1 as [|c s Hc _ IH]; [done|]. simpl.
  unfold ascii_eqb. rewrite bool_decide_eq_false_2 by done. by rewrite IH.
Qed.

Lemma c_str_is_no_nul s : no_nul (c_str s).
Proof.
  induction s as [|c s IH]; simpl; [constructor|].
  unfold ascii_eqb. case_bool_decide; constructor; done.
Qed.

Lemma c_str_cons c s : c ≠ NUL → c_str (c :: s) = c :: c_str s.
Proof. intros H. simpl. unfold ascii_eqb. by rewrite bool_decide_eq_false_2. Qed.

(** ** Reading with [fgets] *)

Lemma fgets_read_line room : ∀ s rest,
  no_newline s → length s < room →
  fgets_read room (s ++ NL :: rest) = (s ++ [NL], rest).
Proof.
  induction room as [|r IH]; intros s rest Hs Hlen; [lia|].
  destruct s as [|c s]; simpl.
  - done.
  - apply Forall_cons in Hs as [Hc Hs]. unfold ascii_eqb.
    rewrite bool_decide_eq_false_2 by done.
    rewrite IH by (simpl in Hlen; done || lia). done.
Qed.

Lemma fgets_read_full room : ∀ s rest,
  no_newline s → length s = room → fgets_read room (s ++ rest) = (s, rest).
Proof.
  induction room as [|r IH]; intros s rest Hs Hlen.
  - destruct s; [|done]. by destruct rest.
  - destruct s as [|c s]; [done|]. simpl.
    apply Forall_cons in Hs as [Hc Hs]. unfold ascii_eqb.
    rewrite bool_decide_eq_false_2 by done.
    rewrite IH by (simpl in Hlen; done || lia). done.
Qed.

Lemma BUFFER_SIZE_pred : BUFFER_SIZE - 1 = 1023.
Proof. done. Qed.

Lemma fgets_line s rest :
  no_newline s → length s < 1023 →
  fgets BUFFER_SIZE (s ++ NL :: rest) = Some (s ++ [NL], rest).
Proof.
  intros Hs Hlen. unfold fgets. rewrite BUFFER_SIZE_pred.
  generalize dependent 1023. intros room Hlen.
  rewrite fgets_read_line by done. by destruct s.
Qed.

Lemma fgets_full s rest :
  no_newline s → length s = 1023 →
  fgets BUFFER_SIZE (s ++ rest) = Some (s, rest).
Proof.
  intros Hs Hlen. unfold fgets. rewrite BUFFER_SIZE_pred.
  rewrite <- Hlen. rewrite fgets_read_full by done.
  destruct s; [simpl in Hlen; lia | done].
Qed.

Lemma fgets_bound stream buf rest :
  fgets BUFFER_SIZE stream = Some (buf, rest) →
  length buf ≤ 1023 ∧ stream = buf ++ rest.
Proof.
  unfold fgets. rewrite BUFFER_SIZE_pred. generalize 1023. intros room.
  destruct stream; [done|]. intros [= H]. by apply fgets_read_length in H.
Qed.

(** ** Items that a saved file gives back *)

Lemma ends_in_text_cons s : ends_in_text s = true → ∃ c t, s = c :: t.
Proof. destruct s; [done|eauto]. Qed.

Lemma load_loop_blank_line rest l : load_loop (NL :: rest) l = load_loop rest l.
Proof.
  rewrite load_loop_eq. change (NL :: rest) with ([] ++ NL :: rest).
  rewrite fgets_line; [done | apply Forall_nil_2 | simpl; lia].
Qed.

Lemma load_loop_line s rest l :
  storable s →
  load_loop (s ++ NL :: rest) l = load_loop rest (add_item l (Some s)).
Proof.
  intros (Hnul & Hnl & Hend & Hlen).
  destruct (ends_in_text_cons s Hend) as (c & t & Hs).
  destruct (decide (length s < 1023)) as [Hlt|Hge].
  - rewrite load_loop_eq, fgets_line by done.
    rewrite c_str_no_nul by (apply Forall_app; split; [done|by repeat constructor]).
    rewrite rtrim_snoc. change (isspace NL) with true. cbv iota.
    rewrite rtrim_fixed by done. by rewrite Hs.
  - rewrite load_loop_eq, fgets_full by (done || lia).
    rewrite c_str_no_nul, rtrim_fixed by done.
    rewrite Hs. by rewrite load_loop_blank_line.
Qed.

(** ** The file written by [save_to_file] *)

Lemma file_lines_cons t ts : file_lines (t :: ts) = t ++ NL :: file_lines ts.
Proof. unfold file_lines. simpl. by rewrite <- app_assoc. Qed.

Lemma save_loop_spec name (arr : list (option (list ascii))) m fl n : ∀ i d,
  i + n ≤ length arr →
  for_loop n i (λ i fs, fwrite name (fmt_s (slot arr i) ++ [NL]) fs)
    {| fs_data := <[name := d]> m; fs_fail := fl |}
  = {| fs_data := <[name := d ++ file_lines (fmt_s <$> take n (drop i arr))]> m;
       fs_fail := fl |}.
Proof.
  induction n as [|n IH]; intros i d Hlen.
  - simpl. by rewrite app_nil_r.
  - destruct (lookup_lt_is_Some_2 arr i) as [x Hx]; [lia|].
    cbn [for_loop]. unfold fwrite at 2. cbn [fs_data fs_fail]. rewrite alter_insert_eq.
    rewrite IH by lia. rewrite (slot_lookup _ _ _ Hx).
    rewrite (drop_S _ _ _ Hx). simpl. rewrite file_lines_cons.
    by rewrite <- !app_assoc.
Qed.

Lemma fmt_s_texts l : dense l → fmt_s <$> contents l = texts l.
Proof.
  intros H. rewrite (dense_contents l H). rewrite <- list_fmap_compose.
  by rewrite list_fmap_id.
Qed.

Lemma save_to_file_ok l name w :
  dense l → fopen_error (w_fs w) name = None →
  save_to_file l name w =
  print (lit "Saved " ++ fmt_zu (count l) ++ lit " items to '" ++ name ++ lit "'" ++ [NL])
    (set_fs (saved_fs l name (w_fs w)) w).
Proof.
  intros Hd Hopen. unfold save_to_file, fopen_w. rewrite Hopen.
  f_equal. f_equal. unfold for_range. rewrite Nat.sub_0_r.
  pose proof Hd as (Hc & Hl & _).
  rewrite save_loop_spec by (simpl; lia).
  unfold saved_fs. rewrite drop_0. fold (contents l).
  by rewrite fmt_s_texts.
Qed.

Lemma load_loop_nil l : load_loop [] l = l.
Proof. by rewrite load_loop_eq. Qed.

Lemma load_loop_lines ts : ∀ l0,
  Forall storable ts → dense l0 →
  dense (load_loop (file_lines ts) l0) ∧
  texts (load_loop (file_lines ts) l0) = texts l0 ++ ts ∧
  count (load_loop (file_lines ts) l0) = count l0 + length ts.
Proof.
  induction ts as [|t ts IH]; intros l0 Hall Hd.
  - change (file_lines []) with (@nil ascii). rewrite load_loop_nil.
    rewrite app_nil_r. simpl. split; [done|]. split; [done|lia].
  - apply Forall_cons in Hall as [Ht Hts].
    rewrite file_lines_cons, load_loop_line by done.
    destruct Ht as (_ & _ & Hend & _).
    destruct (ends_in_text_cons t Hend) as (c & u & ->).
    destruct (add_item_nonempty l0 c u Hd) as (Hcnt & _ & Hd').
    destruct (IH _ Hts Hd') as (H1 & H2 & H3).
    rewrite H2, H3, Hcnt, add_item_texts by done.
    rewrite <- app_assoc. simpl. split; [done|]. split; [done|lia].
Qed.

Lemma line_count_file_lines ts :
  Forall no_newline ts → line_count (file_lines ts) = length ts.
Proof.
  unfold line_count. induction 1 as [|t ts Ht _ IH]; [done|].
  rewrite file_lines_cons, filter_app, length_app.
  rewrite filter_cons_True by done. simpl. rewrite IH.
  assert (filter (λ c, c = NL) t = []) as ->; [|done].
  induction Ht as [|c t Hc _ IHt]; [done|].
  by rewrite filter_cons_False.
Qed.

Lemma save_to_file_fs l name w :
  dense l → fopen_error (w_fs w) name = None →
  w_fs (save_to_file l name w) = saved_fs l name (w_fs w).
Proof. intros Hd Ho. by rewrite save_to_file_ok. Qed.

(** C7. When the file can be opened, [save_to_file] leaves in it exactly
    the items of the list in list order, each followed by one newline,
    and nothing else; no other file changes. The command "/save out.txt"
    on the list [apples, bread] leaves "apples\nbread\n" in out.txt. *)
Theorem save_to_file_format :
  (∀ (l : ShoppingList) (name : list ascii) (w : World),
     dense l → fopen_error (w_fs w) name = None →
     fs_data (w_fs (save_to_file l name w)) !! name = Some (file_lines (texts l)) ∧
     ∀ other, other ≠ name →
       fs_data (w_fs (save_to_file l name w)) !! other = fs_data (w_fs w) !! other)
  ∧ texts apples_bread = [lit "apples"; lit "bread"]
  ∧ ∃ w', try_handle_command apples_bread (lit "/save out.txt") quiet
          = Returned 1 apples_bread w' ∧
          fs_data (w_fs w') !! lit "out.txt"
          = Some (lit "apples" ++ [NL] ++ lit "bread" ++ [NL]).
Proof.
  split; [|split].
  - intros l name w Hd Ho. rewrite save_to_file_fs by done. unfold saved_fs. simpl.
    split; [apply lookup_insert_eq|].
    intros other Hne. by rewrite lookup_insert_ne.
  - reflexivity.
  - eexists. split; [vm_compute; reflexivity|]. vm_compute. reflexivity.
Qed.

Lemma save_to_file_format_witness :
  dense apples_bread ∧ fopen_error (w_fs quiet) (lit "list.txt") = None ∧
  fs_data (w_fs (save_to_file apples_bread (lit "list.txt") quiet)) !! lit "list.txt"
  = Some (file_lines [lit "apples"; lit "bread"]).
Proof.
  assert (Hd : dense apples_bread) by by_decision.
  assert (Ho : fopen_error (w_fs quiet) (lit "list.txt") = None) by reflexivity.
  split; [exact Hd|]. split; [exact Ho|].
  exact (proj1 (proj1 save_to_file_format apples_bread (lit "list.txt") quiet Hd Ho)).
Defined.

(** ** Saving and loading back *)

Lemma load_from_saved l l0 name w :
  dense l → fopen_error (w_fs w) name = None →
  (load_from_file l0 name (save_to_file l name w)).1
  = load_loop (file_lines (texts l)) l0.
Proof.
  intros Hd Ho. unfold load_from_file, fopen_r.
  rewrite save_to_file_fs by done. unfold fopen_error in *. simpl.
  rewrite Ho, lookup_insert_eq. done.
Qed.

(** The list [a ] (one item that ends in a space) has no newline in its
    item, yet saving it and loading the file into a fresh list gives the
    item without the space. *)
Lemma save_load_loses_trailing_space :
  dense list_a_space ∧ Forall no_newline (texts list_a_space) ∧
  contents (load_from_file create_list (lit "f")
              (save_to_file list_a_space (lit "f") quiet)).1
  ≠ contents list_a_space.
Proof.
  split; [by_decision|].
  split; [by_decision|].
  intros H. vm_compute in H. discriminate H.
Qed.

(** C2 (amended). If every item of the saved list is non-empty, has no
    newline, does not end in white space and is at most 1023 bytes long
    (as every item stored from an input line is), then saving the list
    and loading the file into a fresh list gives the same item sequence;
    loading it into a list that already has items appends the saved
    items after them, so the count is the old count plus the number of
    lines of the file, with no deduplication. *)
Theorem save_then_load (l l0 : ShoppingList) (name : list ascii) (w : World) :
  dense l → dense l0 → Forall storable (texts l) →
  fopen_error (w_fs w) name = None →
  contents (load_from_file create_list name (save_to_file l name w)).1 = contents l ∧
  contents (load_from_file l0 name (save_to_file l name w)).1
  = contents l0 ++ contents l ∧
  ∃ f, fopen_r (w_fs (save_to_file l name w)) name = inr f ∧
       count (load_from_file l0 name (save_to_file l name w)).1
       = count l0 + line_count f.
Proof.
  intros Hd Hd0 Hst Ho. rewrite !load_from_saved by done.
  destruct (load_loop_lines (texts l) create_list Hst create_list_dense) as (D1 & T1 & _).
  destruct (load_loop_lines (texts l) l0 Hst Hd0) as (D2 & T2 & C2).
  split; [|split].
  - rewrite (dense_contents _ D1), T1, (dense_contents _ Hd). done.
  - rewrite (dense_contents _ D2), T2, (dense_contents _ Hd), (dense_contents _ Hd0).
    by rewrite fmap_app.
  - exists (file_lines (texts l)). split.
    + unfold fopen_r. rewrite save_to_file_fs by done. unfold fopen_error in *.
      simpl. by rewrite Ho, lookup_insert_eq.
    + rewrite C2, line_count_file_lines; [done|].
      eapply Forall_impl; [exact Hst|]. by intros s (_ & ? & _).
Qed.

Lemma save_then_load_witness :
  dense sample_list ∧ dense apples_bread ∧ Forall storable (texts sample_list) ∧
  contents (load_from_file apples_bread (lit "f") (save_to_file sample_list (lit "f") quiet)).1
  = contents apples_bread ++ contents sample_list.
Proof.
  assert (Hd : dense sample_list) by by_decision.
  assert (Hd0 : dense apples_bread) by by_decision.
  assert (Hst : Forall storable (texts sample_list))
    by by_decision.
  split; [exact Hd|]. split; [exact Hd0|]. split; [exact Hst|].
  exact (proj1 (proj2 (save_then_load sample_list apples_bread (lit "f") quiet
                         Hd Hd0 Hst eq_refl))).
Defined.

(** ** Properties kept by every operation *)

Lemma length_ind {A} (P : list A → Prop) :
  (∀ l, (∀ l', length l' < length l → P l') → P l) → ∀ l, P l.
Proof.
  intros H l. remember (length l) as n eqn:Hn. revert l Hn.
  induction n as [n IH] using lt_wf_ind. intros l ->.
  apply H. intros l' Hl'. by apply (IH (length l')).
Qed.

Section preservation.
Variable P : ShoppingList → Prop.
Hypothesis P_add : ∀ l stream buf rest,
  fgets BUFFER_SIZE stream = Some (buf, rest) →
  P l → P (add_item l (Some (rtrim (c_str buf)))).
Hypothesis P_remove : ∀ l i w, P l → P (remove_item l i w).1.

Lemma load_loop_preserves f : ∀ l, P l → P (load_loop f l).
Proof.
  induction f as [f IH] using length_ind. intros l Hl.
  rewrite load_loop_eq. destruct (fgets BUFFER_SIZE f) as [[buf rest]|] eqn:E; [|done].
  pose proof (fgets_shorter _ _ _ E) as Hlt.
  destruct (rtrim (c_str buf)) as [|c s] eqn:Es; [by apply IH|].
  apply IH; [done|]. rewrite <- Es. by eapply P_add.
Qed.

Lemma load_from_file_preserves l name w : P l → P (load_from_file l name w).1.
Proof.
  intros Hl. unfold load_from_file. destruct (fopen_r (w_fs w) name); [done|].
  by apply load_loop_preserves.
Qed.

Lemma clear_loop_preserves l : ∀ w, P l → P (clear_loop l w).1.
Proof.
  remember (count l) as n eqn:Hn. revert l Hn.
  induction n as [n IH] using lt_wf_ind. intros l -> w Hl.
  rewrite clear_loop_eq. destruct (decide (count l = 0)); [done|].
  apply (IH (count (remove_item l 0 w).1)); [|done|by apply P_remove].
  unfold remove_item. destruct (decide (count l ≤ 0)); simpl; lia.
Qed.

Lemma cmd_remove_preserves l saved w : P l → P (cmd_remove l saved w).1.
Proof.
  intros Hl. unfold cmd_remove. destruct (strtok saved) as [[arg ?]|]; [|done].
  destruct (decide (strtol arg ≤ 0)%Z); [done|]. by apply P_remove.
Qed.

Lemma try_handle_command_preserves l input w ret l' w' :
  P l → try_handle_command l input w = Returned ret l' w' → P l'.
Proof.
  intros Hl. unfold try_handle_command.
  destruct input as [|c s]; [by intros [= _ <- _]|].
  destruct (negb (ascii_eqb c "/")); [by intros [= _ <- _]|].
  destruct (strtok _) as [[cmd saved]|]; [|by intros [= _ <- _]].
  repeat (match goal with |- context [if streq ?a ?b then _ else _] =>
                            destruct (streq a b) end);
    try (by intros [= _ <- _]).
  - pose proof (cmd_remove_preserves l saved w Hl) as H.
    destruct (cmd_remove l saved w). by intros [= _ <- _].
  - destruct (strtok saved) as [[arg ?]|]; by intros [= _ <- _].
  - destruct (strtok saved) as [[arg ?]|]; [|by intros [= _ <- _]].
    pose proof (load_from_file_preserves l arg w Hl) as H.
    destruct (load_from_file l arg w). by intros [= _ <- _].
  - pose proof (clear_loop_preserves l w Hl) as H.
    destruct (clear_loop l w). by intros [= _ <- _].
Qed.

Lemma interact_preserves input : ∀ st l w l' w',
  P l → interact st input l w = Done l' w' → P l'.
Proof.
  induction input as [input IH] using length_ind. intros st l w l' w' Hl.
  destruct st.
  - rewrite interact_item_eq.
    destruct (fgets BUFFER_SIZE input) as [[buf rest]|] eqn:E; [|by intros [= <- _]].
    pose proof (fgets_shorter _ _ _ E) as Hlt. cbv zeta.
    destruct (rtrim (c_str buf)) as [|c s] eqn:Es; [by apply IH|].
    destruct (try_handle_command _ _ _) as [ret l2 w2|] eqn:Ec; [|done].
    pose proof (try_handle_command_preserves _ _ _ _ _ _ Hl Ec) as Hl2.
    destruct (decide (ret = 0)%Z); [|by apply IH].
    apply IH; [done|]. rewrite <- Es. by eapply P_add.
  - rewrite interact_confirm_eq.
    destruct (fgets BUFFER_SIZE input) as [[buf rest]|] eqn:E; [|by intros [= <- _]].
    pose proof (fgets_shorter _ _ _ E) as Hlt. cbv zeta.
    destruct (rtrim (c_str buf)) as [|c s] eqn:Es; [by apply IH|].
    destruct (_ || _); [by apply IH|].
    destruct (_ || _); [by intros [= <- _]|].
    destruct (first_is _ _); [|by apply IH].
    destruct (try_handle_command _ _ _) as [ret l2 w2|] eqn:Ec; [|done].
    pose proof (try_handle_command_preserves _ _ _ _ _ _ Hl Ec) as Hl2.
    destruct (decide (ret = 0)%Z); by apply IH.
Qed.
End preservation.

(** ** Blank input and the non-empty-item invariant *)

Lemma blank_no_nul s : blank s → no_nul s.
Proof.
  intros H. eapply Forall_impl; [exact H|]. intros c Hc ->. discriminate Hc.
Qed.

Lemma blank_trims_to_nil s : blank s → rtrim (c_str s) = [].
Proof.
  intros H. rewrite c_str_no_nul by by apply blank_no_nul. by apply rtrim_blank.
Qed.

Lemma load_loop_blank f : ∀ l, blank f → load_loop f l = l.
Proof.
  induction f as [f IH] using length_ind. intros l Hf.
  rewrite load_loop_eq. destruct (fgets BUFFER_SIZE f) as [[buf rest]|] eqn:E; [|done].
  pose proof (fgets_shorter _ _ _ E) as Hlt.
  apply fgets_bound in E as [_ ->]. apply Forall_app in Hf as [Hb Hr].
  rewrite blank_trims_to_nil by done. by apply IH.
Qed.

Lemma interact_blank input : ∀ st l w,
  blank input → ∃ w', interact st input l w = Done l w'.
Proof.
  induction input as [input IH] using length_ind. intros st l w Hf.
  destruct st; [rewrite interact_item_eq | rewrite interact_confirm_eq];
    (destruct (fgets BUFFER_SIZE input) as [[buf rest]|] eqn:E; [|by eexists]);
    pose proof (fgets_shorter _ _ _ E) as Hlt;
    apply fgets_bound in E as [_ ->]; apply Forall_app in Hf as [Hb Hr];
    cbv zeta; rewrite blank_trims_to_nil by done; by apply IH.
Qed.

Lemma omap_id_Some (xs : list (list ascii)) : omap id (Some <$> xs) = xs.
Proof.
  induction xs as [|x xs IH]; [done|].
  change (x :: omap id (Some <$> xs) = x :: xs). by f_equal.
Qed.

Lemma remove_item_texts l i w :
  dense l → i < count l →
  texts (remove_item l i w).1 = take i (texts l) ++ drop (S i) (texts l).
Proof.
  intros Hd Hi. pose proof Hd as (? & ? & _). unfold texts at 1.
  rewrite remove_item_contents by lia.
  rewrite (dense_contents l Hd), <- fmap_take, <- fmap_drop, <- fmap_app.
  apply omap_id_Some.
Qed.

Lemma remove_item_out_of_range l i w :
  count l ≤ i → remove_item l i w = (l, print (lit "Invalid index" ++ [NL]) w).
Proof. intros H. unfold remove_item. by destruct (decide (count l ≤ i)). Qed.

Lemma add_item_items_nonempty l item : items_nonempty l → items_nonempty (add_item l item).
Proof.
  intros [Hd Hall]. destruct item as [[|c s]|]; [done| |done].
  split; [by apply add_item_dense|]. rewrite add_item_texts by done.
  apply Forall_app. split; [done|]. by repeat constructor.
Qed.

Lemma remove_item_items_nonempty l i w :
  items_nonempty l → items_nonempty (remove_item l i w).1.
Proof.
  intros [Hd Hall]. split; [by apply remove_item_dense|].
  destruct (decide (count l ≤ i)) as [Hge|Hlt].
  - by rewrite remove_item_out_of_range.
  - rewrite remove_item_texts by (done || lia).
    apply Forall_app. split; [by apply Forall_take | by apply Forall_drop].
Qed.

Lemma create_list_items_nonempty : items_nonempty create_list.
Proof. split; [apply create_list_dense | constructor]. Qed.

(** C3. Input that is empty or consists of white space only is never
    stored: trimmed, it is the empty string, which [add_item] ignores; a
    stream of such lines leaves the list as it is, both when it is loaded
    as a file and when it is typed at either prompt. In particular "",
    three spaces and "\r\n" leave [count] unchanged. Every stored item is
    a non-empty string: this holds for the new list and is kept by
    [add_item] (whatever its argument), [remove_item], the /clear loop,
    [load_from_file], every command and the whole interaction. *)
Theorem blank_input_never_stored (l : ShoppingList) (w : World) :
  items_nonempty l →
  (∀ s, blank s →
     add_item l (Some (rtrim (c_str s))) = l ∧
     load_loop s l = l ∧
     ∀ st, ∃ w', interact st s l w = Done l w')
  ∧ (count (add_item l (Some (rtrim (c_str (lit ""))))) = count l ∧
     count (add_item l (Some (rtrim (c_str (lit "   "))))) = count l ∧
     count (add_item l (Some (rtrim (c_str [CR; NL])))) = count l)
  ∧ (items_nonempty create_list ∧
     (∀ item, items_nonempty (add_item l item)) ∧
     (∀ i, items_nonempty (remove_item l i w).1) ∧
     items_nonempty (clear_loop l w).1 ∧
     (∀ name, items_nonempty (load_from_file l name w).1) ∧
     (∀ input ret l' w', try_handle_command l input w = Returned ret l' w' →
        items_nonempty l') ∧
     (∀ st input l' w', interact st input l w = Done l' w' → items_nonempty l')).
Proof.
  intros Hinv.
  assert (Hadd : ∀ l stream buf rest, fgets BUFFER_SIZE stream = Some (buf, rest) →
            items_nonempty l → items_nonempty (add_item l (Some (rtrim (c_str buf)))))
    by (intros; by apply add_item_items_nonempty).
  assert (Hrem : ∀ l i w, items_nonempty l → items_nonempty (remove_item l i w).1)
    by (intros; by apply remove_item_items_nonempty).
  split; [|split].
  - intros s Hs. rewrite blank_trims_to_nil by done.
    split; [done|]. split; [by apply load_loop_blank|].
    intros st. by apply interact_blank.
  - done.
  - split; [apply create_list_items_nonempty|].
    split; [intros; by apply add_item_items_nonempty|].
    split; [intros; by apply remove_item_items_nonempty|].
    split; [by apply clear_loop_preserves|].
    split; [intros; by apply load_from_file_preserves|].
    split.
    + intros input ret l' w' H. by eapply try_handle_command_preserves.
    + intros st input l' w' H. by eapply interact_preserves.
Qed.

Lemma blank_input_never_stored_witness :
  items_nonempty sample_list ∧
  load_loop (lit "   " ++ [NL] ++ [CR; NL]) sample_list = sample_list ∧
  items_nonempty (remove_item sample_list 0 quiet).1.
Proof.
  assert (Hinv : items_nonempty sample_list)
    by by_decision.
  pose proof (blank_input_never_stored sample_list quiet Hinv) as (Hblank & _ & Hkeep).
  split; [exact Hinv|]. split.
  - apply Hblank. by_decision.
  - apply Hkeep.
Defined.

(** ** The dispatcher *)

Lemma first_is_true s c : first_is s c = true ↔ ∃ t, s = c :: t.
Proof.
  destruct s as [|x t]; simpl; [split; [done|by intros [? ?]]|].
  unfold ascii_eqb. rewrite bool_decide_eq_true. split.
  - intros ->. by eexists.
  - by intros [? [= -> _]].
Qed.

(** A line that starts with '/' always has a first token, which starts
    with '/': [strtok] does not return NULL there. *)
Lemma strtok_command_line s :
  ∃ cmd saved, strtok (take (BUFFER_SIZE - 1) ("/"%char :: s)) = Some ("/"%char :: cmd, saved).
Proof.
  rewrite BUFFER_SIZE_pred. cbn [take]. unfold strtok. cbn [skip_delims].
  change (is_delim "/") with false. cbv iota. cbn [token].
  change (is_delim "/") with false. cbv iota.
  destruct (token (take 1022 s)) as [t r]. by eexists _, _.
Qed.

Lemma try_handle_command_not_command l input w :
  first_is input "/"%char = false → try_handle_command l input w = Returned 0 l w.
Proof.
  destruct input as [|c s]; [done|]. simpl. by intros ->.
Qed.

Lemma try_handle_command_handled l input w :
  first_is input "/"%char = true →
  (∃ l' w', try_handle_command l input w = Returned 1 l' w') ∨
  (∃ saved, strtok (take (BUFFER_SIZE - 1) input) = Some (lit "/quit", saved) ∧
            try_handle_command l input w
            = Exited EXIT_SUCCESS (print (lit "Goodbye!" ++ [NL]) w)).
Proof.
  intros [s ->]%first_is_true.
  destruct (strtok_command_line s) as (cmd & saved & Htok).
  unfold try_handle_command. change (negb (ascii_eqb "/" "/")) with false. cbv iota.
  rewrite Htok.
  repeat (match goal with |- context [if streq ?a ?b then _ else _] =>
                            destruct (streq a b) eqn:? end);
    try (left; by eexists _, _).
  - left. destruct (cmd_remove l saved w). by eexists _, _.
  - left. destruct (strtok saved) as [[arg ?]|]; by eexists _, _.
  - left. destruct (strtok saved) as [[arg ?]|]; [|by eexists _, _].
    destruct (load_from_file l arg w). by eexists _, _.
  - left. destruct (clear_loop l w). by eexists _, _.
  - right. exists saved. split; [|done].
    match goal with H : streq _ "/quit" = true |- _ =>
      apply bool_decide_eq_true in H; by rewrite H end.
Qed.

(** The line "/", at a concrete list: the dispatcher prints the
    unknown-command message, so it is not handled silently. *)
Lemma slash_alone_prints_message :
  try_handle_command sample_list (lit "/") quiet
  = Returned 1 sample_list
      (print (lit "Unknown command. Type /help for commands." ++ [NL]) quiet)
  ∧ try_handle_command sample_list (lit "/") quiet ≠ Returned 1 sample_list quiet.
Proof.
  split; [reflexivity|]. intros H. vm_compute in H. discriminate H.
Qed.

(** A command line read at either prompt: the loop stays at the same
    prompt unless the command ends the process. *)
Lemma interact_command st stream buf rest t l w :
  fgets BUFFER_SIZE stream = Some (buf, rest) →
  rtrim (c_str buf) = "/"%char :: t →
  interact st stream l w =
  match try_handle_command l ("/"%char :: t) (print (prompt_of st) w) with
  | Exited status w2 => Quit status w2
  | Returned _ l2 w2 => interact st rest l2 w2
  end.
Proof.
  intros Hget Hs.
  pose proof (try_handle_command_handled l ("/"%char :: t) (print (prompt_of st) w) eq_refl)
    as Hh.
  destruct st; [rewrite interact_item_eq | rewrite interact_confirm_eq];
    rewrite Hget; cbv zeta; rewrite Hs; simpl prompt_of in *.
  - destruct Hh as [(l' & w' & ->)|(? & _ & ->)]; [|done].
    by rewrite decide_False.
  - change (first_is ("/"%char :: t) "y" || first_is ("/"%char :: t) "Y") with false.
    change (first_is ("/"%char :: t) "n" || first_is ("/"%char :: t) "N") with false.
    change (first_is ("/"%char :: t) "/") with true. cbv iota.
    destruct Hh as [(l' & w' & ->)|(? & _ & ->)]; [|done].
    by rewrite decide_False.
Qed.

(** C4 (amended). For the line that is just "/", the dispatcher finds the
    token "/" (the line is not empty of tokens), reports the line as
    handled and leaves the list unchanged, and prints the
    unknown-command message. Read at either prompt, the line adds no
    item: the loop prints the message and reads the next line at the
    same prompt. *)
Theorem slash_alone_is_unknown_command (l : ShoppingList) (w : World) :
  strtok (take (BUFFER_SIZE - 1) (lit "/")) = Some (lit "/", []) ∧
  try_handle_command l (lit "/") w
  = Returned 1 l (print (lit "Unknown command. Type /help for commands." ++ [NL]) w) ∧
  ∀ st rest,
    interact st (lit "/" ++ NL :: rest) l w
    = interact st rest l
        (print (lit "Unknown command. Type /help for commands." ++ [NL])
           (print (prompt_of st) w)).
Proof.
  split; [reflexivity|]. split; [reflexivity|]. intros st rest.
  rewrite (interact_command st _ (lit "/" ++ [NL]) rest []).
  - reflexivity.
  - apply fgets_line; [by_decision | simpl; lia].
  - reflexivity.
Qed.

(** The line "/quit": the dispatcher ends the process and returns
    nothing to its caller. *)
Lemma quit_does_not_return :
  try_handle_command sample_list (lit "/quit") quiet
  = Exited EXIT_SUCCESS (print (lit "Goodbye!" ++ [NL]) quiet)
  ∧ ¬ ∃ l' w', try_handle_command sample_list (lit "/quit") quiet = Returned 1 l' w'.
Proof.
  split; [reflexivity|]. intros (l' & w' & H). vm_compute in H. discriminate H.
Qed.

(** C6 (amended). The dispatcher reports a line as not handled (returns
    0, with no effect) exactly when its first character is not '/'. For
    a line whose first character is '/' it either returns 1 (handled) or,
    when the first token is "/quit", ends the process with success; it
    never returns 0 there, so the not-handled branch of the confirmation
    loop is not reachable: a command line read at a prompt either ends
    the process or leaves the loop at the same prompt. *)
Theorem command_iff_slash (l : ShoppingList) (input : list ascii) (w : World) :
  (first_is input "/"%char = false ↔ try_handle_command l input w = Returned 0 l w)
  ∧ (first_is input "/"%char = true →
       (∃ l' w', try_handle_command l input w = Returned 1 l' w') ∨
       (∃ saved, strtok (take (BUFFER_SIZE - 1) input) = Some (lit "/quit", saved) ∧
                 try_handle_command l input w
                 = Exited EXIT_SUCCESS (print (lit "Goodbye!" ++ [NL]) w)))
  ∧ (first_is input "/"%char = true →
       ∀ ret l' w', try_handle_command l input w = Returned ret l' w' → ret ≠ 0%Z)
  ∧ (first_is input "/"%char = true →
       ∀ st stream buf rest,
         fgets BUFFER_SIZE stream = Some (buf, rest) → rtrim (c_str buf) = input →
         interact st stream l w =
         match try_handle_command l input (print (prompt_of st) w) with
         | Exited status w2 => Quit status w2
         | Returned _ l2 w2 => interact st rest l2 w2
         end).
Proof.
  split; [split|split; [|split]].
  - apply try_handle_command_not_command.
  - intros H. destruct (first_is input "/") eqn:E; [|done].
    destruct (try_handle_command_handled l input w E) as [(l' & w' & H')|(? & _ & H')];
      rewrite H' in H; discriminate H.
  - apply try_handle_command_handled.
  - intros E ret l' w' H.
    destruct (try_handle_command_handled l input w E) as [(l2 & w2 & H')|(? & _ & H')];
      rewrite H' in H; [by injection H as <- _ _ | discriminate H].
  - intros [t ->]%first_is_true st stream buf rest Hget Hs.
    by apply (interact_command st stream buf rest t).
Qed.

Lemma command_iff_slash_witness :
  first_is (lit "/view") "/"%char = true ∧
  ∀ ret l' w', try_handle_command sample_list (lit "/view") quiet = Returned ret l' w' →
               ret ≠ 0%Z.
Proof.
  split; [reflexivity|].
  exact (proj1 (proj2 (proj2 (command_iff_slash sample_list (lit "/view") quiet))) eq_refl).
Defined.

(** ** The index of /remove *)

Lemma strtol_digits_stop acc s :
  starts_with_digit s = false → strtol_digits acc s = acc.
Proof. destruct s as [|c s]; [done|]. simpl. by intros ->. Qed.

Lemma strtol_digits_run ds : ∀ acc tail,
  Forall (λ c, isdigit c = true) ds → starts_with_digit tail = false →
  strtol_digits acc (ds ++ tail) = fold_left (λ acc c, acc * 10 + digit_val c)%Z ds acc.
Proof.
  induction ds as [|d ds IH]; intros acc tail Hds Htail; simpl.
  - by apply strtol_digits_stop.
  - apply Forall_cons in Hds as [Hd Hds]. simpl in Hd. rewrite Hd. by apply IH.
Qed.

Lemma strtol_no_digits arg :
  starts_with_digit (digits_position arg) = false → strtol arg = 0%Z.
Proof.
  unfold digits_position, strtol.
  destruct (strtol_sign (skip_space arg)) as [neg s2]. simpl. intros H.
  rewrite strtol_digits_stop by done. by destruct neg.
Qed.

Lemma isdigit_not_space c : isdigit c = true → isspace c = false.
Proof. destruct c as [[] [] [] [] [] [] [] []]; (reflexivity || discriminate). Qed.

Lemma isdigit_not_sign c :
  isdigit c = true → ascii_eqb c "-"%char = false ∧ ascii_eqb c "+"%char = false.
Proof. destruct c as [[] [] [] [] [] [] [] []]; (by split) || discriminate. Qed.

Lemma strtol_leading_digits d ds tail :
  Forall (λ c, isdigit c = true) (d :: ds) → starts_with_digit tail = false →
  strtol ((d :: ds) ++ tail) = Z.min LONG_MAX (decimal (d :: ds)).
Proof.
  intros Hds Htail. pose proof Hds as [Hd _]%Forall_cons. simpl in Hd.
  unfold strtol. cbn [app skip_space]. rewrite (isdigit_not_space d Hd).
  unfold strtol_sign. destruct (isdigit_not_sign d Hd) as [-> ->].
  change (d :: ds ++ tail) with ((d :: ds) ++ tail).
  by rewrite strtol_digits_run.
Qed.

Lemma cmd_remove_spec l saved arg saved' w :
  strtok saved = Some (arg, saved') →
  cmd_remove l saved w =
  if decide (strtol arg ≤ 0)%Z
  then (l, print (lit "Specify a positive index" ++ [NL]) w)
  else remove_item l (Z.to_nat (strtol arg - 1)) w.
Proof. intros H. unfold cmd_remove. by rewrite H. Qed.

(** The argument "+2" does not start with a digit, yet [strtol] reads it
    as 2 (and "-5" as -5): "/remove +2" removes the second item and
    prints nothing. *)
Lemma signed_argument_is_parsed :
  starts_with_digit (lit "+2") = false ∧
  strtol (lit "+2") = 2%Z ∧ strtol (lit "+2") ≠ 0%Z ∧
  starts_with_digit (lit "-5") = false ∧ strtol (lit "-5") = (-5)%Z ∧
  try_handle_command sample_list (lit "/remove +2") quiet
  = Returned 1 (remove_item sample_list 1 quiet).1 quiet ∧
  texts (remove_item sample_list 1 quiet).1 = [lit "milk"; lit "tea"].
Proof.
  split; [reflexivity|]. split; [reflexivity|]. split; [discriminate|].
  split; [reflexivity|]. split; [reflexivity|].
  split; vm_compute; reflexivity.
Qed.

(** C5 (amended). Whatever the argument token of /remove is, its index
    is [strtol] of it: white space and one sign at the start are
    skipped, the digits that follow are read as far as they go and what
    comes after them is ignored; an argument that has no digit at that
    place (after the skipped white space and sign) gives 0, while an
    argument such as "+2" gives 2. When the value is [<= 0] the program
    prints "Specify a positive index" and returns the list unchanged;
    otherwise it calls [remove_item] with the value minus 1. *)
Theorem remove_command_index (l : ShoppingList) (w : World)
    (input saved arg saved' : list ascii) :
  first_is input "/"%char = true →
  strtok (take (BUFFER_SIZE - 1) input) = Some (lit "/remove", saved) →
  strtok saved = Some (arg, saved') →
  (starts_with_digit (digits_position arg) = false → strtol arg = 0%Z)
  ∧ (∀ d ds tail, arg = (d :: ds) ++ tail →
       Forall (λ c, isdigit c = true) (d :: ds) → starts_with_digit tail = false →
       strtol arg = Z.min LONG_MAX (decimal (d :: ds)))
  ∧ ((strtol arg ≤ 0)%Z →
       try_handle_command l input w
       = Returned 1 l (print (lit "Specify a positive index" ++ [NL]) w))
  ∧ ((0 < strtol arg)%Z →
       try_handle_command l input w
       = Returned 1 (remove_item l (Z.to_nat (strtol arg - 1)) w).1
                    (remove_item l (Z.to_nat (strtol arg - 1)) w).2)
  ∧ try_handle_command l (lit "/remove 0") w
    = Returned 1 l (print (lit "Specify a positive index" ++ [NL]) w)
  ∧ try_handle_command l (lit "/remove abc") w
    = Returned 1 l (print (lit "Specify a positive index" ++ [NL]) w).
Proof.
  intros [s ->]%first_is_true Hcmd Harg.
  split; [apply strtol_no_digits|].
  split; [intros d ds tail -> Hds Htail; by apply strtol_leading_digits|].
  enough (((strtol arg ≤ 0)%Z →
            try_handle_command l ("/"%char :: s) w
            = Returned 1 l (print (lit "Specify a positive index" ++ [NL]) w))
          ∧ ((0 < strtol arg)%Z →
            try_handle_command l ("/"%char :: s) w
            = Returned 1 (remove_item l (Z.to_nat (strtol arg - 1)) w).1
                (remove_item l (Z.to_nat (strtol arg - 1)) w).2)) as [H1 H2]
    by (split; [exact H1|split; [exact H2|split; reflexivity]]).
  unfold try_handle_command. change (negb (ascii_eqb "/" "/")) with false. cbv iota.
  rewrite Hcmd. change (streq (lit "/remove") "/view") with false.
  change (streq (lit "/remove") "/remove") with true. cbv iota.
  rewrite (cmd_remove_spec _ _ _ _ _ Harg).
  split; intros Hidx.
  - by rewrite decide_True.
  - rewrite decide_False by lia. by destruct (remove_item _ _ _).
Qed.

Lemma remove_command_index_witness :
  first_is (lit "/remove 2x") "/"%char = true ∧
  strtok (take (BUFFER_SIZE - 1) (lit "/remove 2x")) = Some (lit "/remove", lit "2x") ∧
  strtok (lit "2x") = Some (lit "2x", []) ∧
  strtol (lit "2x") = 2%Z ∧
  try_handle_command sample_list (lit "/remove 2x") quiet
  = Returned 1 (remove_item sample_list 1 quiet).1 (remove_item sample_list 1 quiet).2.
Proof.
  split; [reflexivity|]. split; [reflexivity|]. split; [reflexivity|].
  split; [reflexivity|].
  refine (proj1 (proj2 (proj2 (proj2 (remove_command_index sample_list quiet
            (lit "/remove 2x") (lit "2x") (lit "2x") [] eq_refl eq_refl eq_refl)))) _).
  vm_compute. reflexivity.
Defined.

(** ** Failing to open a file *)

Lemma save_command l w input saved name saved' :
  first_is input "/"%char = true →
  strtok (take (BUFFER_SIZE - 1) input) = Some (lit "/save", saved) →
  strtok saved = Some (name, saved') →
  try_handle_command l input w = Returned 1 l (save_to_file l name w).
Proof.
  intros [s ->]%first_is_true Hcmd Harg. unfold try_handle_command.
  change (negb (ascii_eqb "/" "/")) with false. cbv iota. rewrite Hcmd.
  change (streq (lit "/save") "/view") with false.
  change (streq (lit "/save") "/remove") with false.
  change (streq (lit "/save") "/save") with true. cbv iota. by rewrite Harg.
Qed.

Lemma load_command l w input saved name saved' :
  first_is input "/"%char = true →
  strtok (take (BUFFER_SIZE - 1) input) = Some (lit "/load", saved) →
  strtok saved = Some (name, saved') →
  try_handle_command l input w
  = Returned 1 (load_from_file l name w).1 (load_from_file l name w).2.
Proof.
  intros [s ->]%first_is_true Hcmd Harg. unfold try_handle_command.
  change (negb (ascii_eqb "/" "/")) with false. cbv iota. rewrite Hcmd.
  change (streq (lit "/load") "/view") with false.
  change (streq (lit "/load") "/remove") with false.
  change (streq (lit "/load") "/save") with false.
  change (streq (lit "/load") "/load") with true. cbv iota. rewrite Harg.
  by destruct (load_from_file l name w).
Qed.

Lemma save_to_file_failure l name w reason :
  fopen_w (w_fs w) name = inl reason → save_to_file l name w = open_failed reason w.
Proof. intros H. unfold save_to_file. by rewrite H. Qed.

Lemma load_from_file_failure l name w reason :
  fopen_r (w_fs w) name = inl reason →
  load_from_file l name w = (l, open_failed reason w).
Proof. intros H. unfold load_from_file. by rewrite H. Qed.

(** C8. When the file cannot be opened, [save_to_file] and
    [load_from_file] write "Failed to open file: <reason>" to the error
    stream and change nothing else: the list, the files and standard
    output stay as they were. The /save and /load commands then return 1
    with the same list, and the interaction loop that read the command
    goes on with the next line at the same prompt. *)
Theorem open_failure_keeps_list (l : ShoppingList) (w : World)
    (name reason : list ascii) :
  (w_fs (open_failed reason w) = w_fs w ∧
   w_stdout (open_failed reason w) = w_stdout w ∧
   w_stderr (open_failed reason w)
   = w_stderr w ++ lit "Failed to open file: " ++ reason ++ [NL])
  ∧ (fopen_w (w_fs w) name = inl reason →
       save_to_file l name w = open_failed reason w ∧
       ∀ input saved saved',
         first_is input "/"%char = true →
         strtok (take (BUFFER_SIZE - 1) input) = Some (lit "/save", saved) →
         strtok saved = Some (name, saved') →
         try_handle_command l input w = Returned 1 l (open_failed reason w) ∧
         ∀ st stream buf rest,
           fgets BUFFER_SIZE stream = Some (buf, rest) → rtrim (c_str buf) = input →
           interact st stream l w
           = interact st rest l (open_failed reason (print (prompt_of st) w)))
  ∧ (fopen_r (w_fs w) name = inl reason →
       load_from_file l name w = (l, open_failed reason w) ∧
       ∀ input saved saved',
         first_is input "/"%char = true →
         strtok (take (BUFFER_SIZE - 1) input) = Some (lit "/load", saved) →
         strtok saved = Some (name, saved') →
         try_handle_command l input w = Returned 1 l (open_failed reason w) ∧
         ∀ st stream buf rest,
           fgets BUFFER_SIZE stream = Some (buf, rest) → rtrim (c_str buf) = input →
           interact st stream l w
           = interact st rest l (open_failed reason (print (prompt_of st) w))).
Proof.
  split; [repeat split; reflexivity|]. split.
  - intros Hopen. split; [by apply save_to_file_failure|].
    intros input saved saved' Hfirst Hcmd Harg. split.
    + rewrite (save_command _ _ _ _ _ _ Hfirst Hcmd Harg).
      by rewrite (save_to_file_failure _ _ _ reason).
    + intros st stream buf rest Hget Hs.
      pose proof Hfirst as [t ->]%first_is_true.
      rewrite (interact_command st stream buf rest t) by done.
      rewrite (save_command _ _ _ _ _ _ Hfirst Hcmd Harg).
      by rewrite (save_to_file_failure _ _ _ reason).
  - intros Hopen. split; [by apply load_from_file_failure|].
    intros input saved saved' Hfirst Hcmd Harg. split.
    + rewrite (load_command _ _ _ _ _ _ Hfirst Hcmd Harg).
      by rewrite (load_from_file_failure _ _ _ reason).
    + intros st stream buf rest Hget Hs.
      pose proof Hfirst as [t ->]%first_is_true.
      rewrite (interact_command st stream buf rest t) by done.
      rewrite (load_command _ _ _ _ _ _ Hfirst Hcmd Harg).
      by rewrite (load_from_file_failure _ _ _ reason).
Qed.

Lemma open_failure_keeps_list_witness :
  fopen_w (w_fs locked) (lit "ro.txt") = inl (lit "Permission denied") ∧
  save_to_file sample_list (lit "ro.txt") locked
  = open_failed (lit "Permission denied") locked ∧
  fopen_r (w_fs quiet) (lit "none.txt") = inl (lit "No such file or directory") ∧
  load_from_file sample_list (lit "none.txt") quiet
  = (sample_list, open_failed (lit "No such file or directory") quiet) ∧
  interact AwaitingItem (lit "/load none.txt" ++ [NL]) sample_list quiet
  = interact AwaitingItem [] sample_list
      (open_failed (lit "No such file or directory") (print item_prompt quiet)).
Proof.
  assert (Hw : fopen_w (w_fs locked) (lit "ro.txt") = inl (lit "Permission denied"))
    by (vm_compute; reflexivity).
  assert (Hr : fopen_r (w_fs quiet) (lit "none.txt") = inl (lit "No such file or directory"))
    by (vm_compute; reflexivity).
  pose proof (open_failure_keeps_list sample_list locked (lit "ro.txt")
                (lit "Permission denied")) as (_ & Hsave & _).
  pose proof (open_failure_keeps_list sample_list quiet (lit "none.txt")
                (lit "No such file or directory")) as (_ & _ & Hload).
  split; [exact Hw|]. split; [exact (proj1 (Hsave Hw))|].
  split; [exact Hr|]. split; [exact (proj1 (Hload Hr))|].
  destruct (Hload Hr) as [_ Hcmd].
  destruct (Hcmd (lit "/load none.txt") (lit "none.txt") [] eq_refl eq_refl eq_refl)
    as [_ Hloop].
  apply (Hloop AwaitingItem _ (lit "/load none.txt" ++ [NL]) []); reflexivity.
Defined.

(** ** The confirmation loop *)

Ltac char_ne := let H := fresh in intros H; vm_compute in H; discriminate H.

Lemma trimmed_head c s :
  c ≠ NUL → isspace c = false → ∃ t, rtrim (c_str (c :: s)) = c :: t.
Proof. intros Hn Hs. rewrite c_str_cons by done. by apply rtrim_keeps_head. Qed.

Lemma interact_item_add stream buf rest c t l w :
  fgets BUFFER_SIZE stream = Some (buf, rest) →
  rtrim (c_str buf) = c :: t → c ≠ "/"%char →
  interact AwaitingItem stream l w
  = interact AwaitingConfirmation rest (add_item l (Some (c :: t)))
      (print (lit "Added: " ++ (c :: t) ++ [NL]) (print item_prompt w)).
Proof.
  intros Hget Hs Hc. rewrite interact_item_eq, Hget. cbv zeta. rewrite Hs.
  rewrite try_handle_command_not_command; [done|].
  simpl. unfold ascii_eqb. by rewrite bool_decide_eq_false_2.
Qed.

Lemma interact_confirm_yes stream buf rest l w :
  fgets BUFFER_SIZE stream = Some (buf, rest) →
  first_is buf "y"%char || first_is buf "Y"%char = true →
  interact AwaitingConfirmation stream l w
  = interact AwaitingItem rest l (print confirm_prompt w).
Proof.
  intros Hget Hy. rewrite interact_confirm_eq, Hget. cbv zeta.
  apply orb_true_iff in Hy as [[s ->]%first_is_true|[s ->]%first_is_true].
  - destruct (trimmed_head "y"%char s ltac:(char_ne) eq_refl) as [t ->]. reflexivity.
  - destruct (trimmed_head "Y"%char s ltac:(char_ne) eq_refl) as [t ->]. reflexivity.
Qed.

Lemma interact_confirm_no stream buf rest l w :
  fgets BUFFER_SIZE stream = Some (buf, rest) →
  first_is buf "n"%char || first_is buf "N"%char = true →
  interact AwaitingConfirmation stream l w = Done l (print confirm_prompt w).
Proof.
  intros Hget Hy. rewrite interact_confirm_eq, Hget. cbv zeta.
  apply orb_true_iff in Hy as [[s ->]%first_is_true|[s ->]%first_is_true].
  - destruct (trimmed_head "n"%char s ltac:(char_ne) eq_refl) as [t ->]. reflexivity.
  - destruct (trimmed_head "N"%char s ltac:(char_ne) eq_refl) as [t ->]. reflexivity.
Qed.

Lemma main_finalizes stdin fs l w :
  interact AwaitingItem stdin create_list
    (print banner {| w_stdout := []; w_stderr := []; w_fs := fs |}) = Done l w →
  main stdin fs = (0%Z, print_list l (print final_header w)).
Proof. intros H. unfold main. cbv zeta. by rewrite H. Qed.

(** C9. After a line is added as an item the program is in the
    confirmation loop. There, a line whose first character is 'y' or 'Y'
    leads back to the item prompt with the list as it is, and a line
    whose first character is 'n' or 'N' ends both loops at [done], where
    [main] prints "Final list:" and the whole list and returns 0. With
    the input milk, y, eggs, n the program returns 0 and its output ends
    with the final list "1. milk", "2. eggs". *)
Theorem confirmation_loop (l : ShoppingList) (w : World)
    (stream buf rest : list ascii) :
  fgets BUFFER_SIZE stream = Some (buf, rest) →
  (∀ c t, rtrim (c_str buf) = c :: t → c ≠ "/"%char →
     interact AwaitingItem stream l w
     = interact AwaitingConfirmation rest (add_item l (Some (c :: t)))
         (print (lit "Added: " ++ (c :: t) ++ [NL]) (print item_prompt w)))
  ∧ (first_is buf "y"%char || first_is buf "Y"%char = true →
     interact AwaitingConfirmation stream l w
     = interact AwaitingItem rest l (print confirm_prompt w))
  ∧ (first_is buf "n"%char || first_is buf "N"%char = true →
     interact AwaitingConfirmation stream l w = Done l (print confirm_prompt w))
  ∧ (∀ stdin fs l' w',
       interact AwaitingItem stdin create_list
         (print banner {| w_stdout := []; w_stderr := []; w_fs := fs |}) = Done l' w' →
       main stdin fs = (0%Z, print_list l' (print final_header w')))
  ∧ (∃ l' w',
       interact AwaitingItem milk_eggs_input create_list (print banner quiet) = Done l' w' ∧
       texts l' = [lit "milk"; lit "eggs"] ∧
       main milk_eggs_input empty_fs
       = (0%Z, print (lit "Your shopping list:" ++ [NL]
                      ++ lit "1. milk" ++ [NL] ++ lit "2. eggs" ++ [NL])
                 (print final_header w'))).
Proof.
  intros Hget.
  split; [intros c t Hs Hc; by eapply interact_item_add|].
  split; [intros Hy; by eapply interact_confirm_yes|].
  split; [intros Hn; by eapply interact_confirm_no|].
  split; [intros stdin fs l' w' H; by apply main_finalizes|].
  eexists _, _. split; [vm_compute; reflexivity|].
  split; vm_compute; reflexivity.
Qed.

Lemma confirmation_loop_witness :
  fgets BUFFER_SIZE (lit "Yes" ++ [NL] ++ lit "tea") = Some (lit "Yes" ++ [NL], lit "tea") ∧
  interact AwaitingConfirmation (lit "Yes" ++ [NL] ++ lit "tea") sample_list quiet
  = interact AwaitingItem (lit "tea") sample_list (print confirm_prompt quiet).
Proof.
  assert (Hget : fgets BUFFER_SIZE (lit "Yes" ++ [NL] ++ lit "tea")
                 = Some (lit "Yes" ++ [NL], lit "tea")) by (vm_compute; reflexivity).
  split; [exact Hget|].
  exact (proj1 (proj2 (confirmation_loop sample_list quiet _ _ _ Hget)) eq_refl).
Defined.

(** ** Lines longer than the buffer *)









(** ** Every item the program stores can be saved and loaded back *)

Lemma c_str_prefix buf : c_str buf `prefix_of` buf.
Proof.
  induction buf as [|c s IH]; simpl; [done|].
  destruct (ascii_eqb c NUL); [apply prefix_nil | by apply prefix_cons].
Qed.

Lemma rtrim_prefix_of s : rtrim s `prefix_of` s.
Proof. destruct (rtrim_prefix s) as (t & Ht & _). by exists t. Qed.

Lemma fgets_read_newline room : ∀ stream got rest,
  fgets_read room stream = (got, rest) →
  ∃ x, no_newline x ∧ (got = x ∨ got = x ++ [NL]).
Proof.
  induction room as [|r IH]; intros [|c s] got rest; simpl;
    try (intros [= <- _]; exists []; split; [constructor | by left]).
  unfold ascii_eqb. case_bool_decide as Hc.
  - intros [= <- _]. subst c. exists []. split; [constructor | by right].
  - destruct (fgets_read r s) as [g rm] eqn:E. intros [= <- _].
    destruct (IH _ _ _ E) as (x & Hx & Hg). exists (c :: x).
    split; [by constructor|]. destruct Hg as [->| ->]; [by left | by right].
Qed.

Lemma fgets_newline size stream buf rest :
  fgets size stream = Some (buf, rest) →
  ∃ x, no_newline x ∧ (buf = x ∨ buf = x ++ [NL]).
Proof.
  unfold fgets. destruct stream as [|c s]; [done|].
  generalize (fgets_read_newline (size - 1) (c :: s) buf rest).
  generalize (fgets_read (size - 1) (c :: s)). intros r H [= ->]. by apply H.
Qed.

Lemma prefix_of_line p x :
  no_newline x → ends_in_text p = true →
  p `prefix_of` x ∨ p `prefix_of` x ++ [NL] → no_newline p.
Proof.
  intros Hx Hend [[k Hk]|[k Hk]].
  - rewrite Hk in Hx. by apply Forall_app in Hx as [? _].
  - destruct k as [|z k _] using rev_ind.
    + rewrite app_nil_r in Hk. subst p. unfold ends_in_text in Hend.
      rewrite last_snoc in Hend. discriminate Hend.
    + rewrite app_assoc in Hk. apply app_inj_tail in Hk as [Hk _].
      rewrite Hk in Hx. by apply Forall_app in Hx as [? _].
Qed.

Lemma trimmed_line_storable stream buf rest :
  fgets BUFFER_SIZE stream = Some (buf, rest) →
  rtrim (c_str buf) ≠ [] → storable (rtrim (c_str buf)).
Proof.
  intros Hget Hne.
  assert (Hp : rtrim (c_str buf) `prefix_of` buf)
    by (etrans; [apply rtrim_prefix_of | apply c_str_prefix]).
  assert (Hend : ends_in_text (rtrim (c_str buf)) = true)
    by (by destruct (rtrim_result (c_str buf))).
  pose proof (fgets_bound _ _ _ Hget) as [Hlen _].
  split; [|split; [|split; [done|]]].
  - destruct (rtrim_prefix_of (c_str buf)) as [k Hk].
    pose proof (c_str_is_no_nul buf) as Hn. rewrite Hk in Hn.
    by apply Forall_app in Hn as [? _].
  - destruct (fgets_newline _ _ _ _ Hget) as (x & Hx & [->| ->]);
      apply (prefix_of_line _ x); auto.
  - apply prefix_length in Hp. lia.
Qed.

Lemma well_stored_add l stream buf rest :
  fgets BUFFER_SIZE stream = Some (buf, rest) →
  well_stored l → well_stored (add_item l (Some (rtrim (c_str buf)))).
Proof.
  intros Hget [Hd Hall]. split; [by apply add_item_dense|].
  destruct (rtrim (c_str buf)) as [|c s] eqn:E; [done|].
  rewrite add_item_texts by done. apply Forall_app. split; [done|].
  constructor; [|constructor]. rewrite <- E.
  eapply trimmed_line_storable; [done|]. by rewrite E.
Qed.

Lemma well_stored_remove l i w : well_stored l → well_stored (remove_item l i w).1.
Proof.
  intros [Hd Hall]. split; [by apply remove_item_dense|].
  destruct (decide (count l ≤ i)) as [Hge|Hlt].
  - by rewrite remove_item_out_of_range.
  - rewrite remove_item_texts by (done || lia).
    apply Forall_app. split; [by apply Forall_take | by apply Forall_drop].
Qed.

(** Whatever is typed and whatever files are loaded, the list the
    interaction ends with is dense and holds only [storable] items. *)
Lemma interact_well_stored st input w l' w' :
  interact st input create_list w = Done l' w' → well_stored l'.
Proof.
  apply (interact_preserves well_stored well_stored_add well_stored_remove).
  split; [apply create_list_dense | constructor].
Qed.

(** * Further properties of the code *)

(** ** What [rtrim] returns *)

Lemma rtrim_app_blank p t :
  blank t → (p = [] ∨ ends_in_text p = true) → rtrim (p ++ t) = p.
Proof.
  intros Ht Hp. induction t as [|c t IH] using rev_ind.
  - rewrite app_nil_r. destruct Hp as [->|Hp]; [done|by apply rtrim_fixed].
  - apply Forall_app in Ht as [Ht Hc]. apply Forall_inv in Hc. simpl in Hc.
    rewrite app_assoc, rtrim_snoc, Hc. by apply IH.
Qed.

(** X1. [rtrim] cuts off exactly the white space at the end: the result
    is a prefix of the string, what is cut is white space only, and the
    result is empty or ends in a byte that is not white space; it is the
    only such prefix, and trimming twice changes nothing more. *)
Theorem rtrim_characterisation (s : list ascii) :
  (∃ t, s = rtrim s ++ t ∧ blank t) ∧
  (rtrim s = [] ∨ ends_in_text (rtrim s) = true) ∧
  (∀ p t, s = p ++ t → blank t → p = [] ∨ ends_in_text p = true → rtrim s = p) ∧
  rtrim (rtrim s) = rtrim s.
Proof.
  split; [apply rtrim_prefix|]. split; [apply rtrim_result|]. split.
  - intros p t -> Ht Hp. by apply rtrim_app_blank.
  - destruct (rtrim_result s) as [->|H]; [done|by apply rtrim_fixed].
Qed.

(** ** Sequences of [add_item] *)

Lemma add_all_snoc l ss s : add_all l (ss ++ [s]) = add_item (add_all l ss) (Some s).
Proof. unfold add_all. by rewrite foldl_app. Qed.

Lemma add_all_dense ss : ∀ l, dense l → dense (add_all l ss).
Proof.
  induction ss as [|s ss IH]; intros l Hd; [done|].
  change (add_all l (s :: ss)) with (add_all (add_item l (Some s)) ss).
  apply IH. by apply add_item_dense.
Qed.

(** X2. Items are kept in the order in which they were added: after any
    sequence of [add_item] calls on a dense list, the list holds its old
    items followed by the non-empty strings of the sequence, in order
    (empty strings are ignored), and [count] has grown by their number,
    however often the array had to grow. *)
Theorem adds_keep_insertion_order (l : ShoppingList) (ss : list (list ascii)) :
  dense l →
  dense (add_all l ss) ∧
  texts (add_all l ss) = texts l ++ filter (λ s, s ≠ []) ss ∧
  count (add_all l ss) = count l + length (filter (λ s, s ≠ []) ss).
Proof.
  intros Hd. split; [by apply add_all_dense|]. revert l Hd.
  induction ss as [|s ss IH]; intros l Hd.
  - simpl. rewrite app_nil_r. split; [done|lia].
  - change (add_all l (s :: ss)) with (add_all (add_item l (Some s)) ss).
    destruct s as [|c s].
    + rewrite filter_cons_False by (intros H; by apply H). by apply IH.
    + rewrite filter_cons_True by done.
      destruct (add_item_nonempty l c s Hd) as (Hc & _ & Hd').
      destruct (IH _ Hd') as (H2 & H3).
      rewrite H2, H3, Hc, add_item_texts by done. rewrite <- app_assoc.
      split; [done|simpl; lia].
Qed.

Lemma adds_keep_insertion_order_witness :
  dense create_list ∧
  texts (add_all create_list
           [lit "a"; lit "b"; []; lit "c"; lit "d"; lit "e"; lit "f"; lit "g"; lit "h";
            lit "i"; lit "j"])
  = texts create_list
    ++ filter (λ s, s ≠ [])
         [lit "a"; lit "b"; []; lit "c"; lit "d"; lit "e"; lit "f"; lit "g"; lit "h";
          lit "i"; lit "j"].
Proof.
  split; [by_decision|].
  apply (adds_keep_insertion_order create_list). by_decision.
Defined.

(** ** The capacity of the array *)

Lemma add_item_capacity l c s :
  capacity (add_item l (Some (c :: s)))
  = if decide (capacity l ≤ count l) then capacity l * 2 else capacity l.
Proof. simpl. unfold ensure_capacity. by destruct (decide (capacity l ≤ count l)). Qed.

Lemma remove_item_capacity l i w : capacity (remove_item l i w).1 = capacity l.
Proof. unfold remove_item. by destruct (decide (count l ≤ i)). Qed.

(** X3. The array grows by doubling and never shrinks: on a dense list
    [add_item] of a non-empty string doubles the capacity exactly when
    the array is full ([count = capacity]) and otherwise keeps it, and
    there is room for the new item either way; [remove_item] keeps the
    capacity whatever the index. *)
Theorem capacity_doubles_when_full (l : ShoppingList) (c : ascii) (s : list ascii)
    (i : nat) (w : World) :
  dense l →
  capacity (add_item l (Some (c :: s)))
  = (if decide (count l = capacity l) then capacity l * 2 else capacity l) ∧
  count (add_item l (Some (c :: s))) ≤ capacity (add_item l (Some (c :: s))) ∧
  length (items (add_item l (Some (c :: s)))) = capacity (add_item l (Some (c :: s))) ∧
  capacity (remove_item l i w).1 = capacity l.
Proof.
  intros Hd. pose proof Hd as (Hc & _).
  destruct (add_item_nonempty l c s Hd) as (_ & _ & (Hc' & Hl' & _)).
  split; [|split; [done|split; [done|apply remove_item_capacity]]].
  rewrite add_item_capacity.
  destruct (decide (capacity l ≤ count l)), (decide (count l = capacity l)); lia.
Qed.

Lemma capacity_doubles_when_full_witness :
  dense (add_all create_list (replicate 8 (lit "x"))) ∧
  capacity (add_item (add_all create_list (replicate 8 (lit "x"))) (Some (lit "y"))) = 16.
Proof.
  assert (Hd : dense (add_all create_list (replicate 8 (lit "x")))) by by_decision.
  split; [exact Hd|].
  destruct (capacity_doubles_when_full _ "y"%char [] 0 quiet Hd) as [H _].
  change (Some (lit "y")) with (Some ["y"%char]). rewrite H. reflexivity.
Defined.

Lemma add_all_capacity ss : ∀ l,
  dense l →
  (∃ k, capacity l = INITIAL_CAPACITY * 2 ^ k) →
  capacity l = INITIAL_CAPACITY ∨ capacity l < 2 * count l →
  (∃ k, capacity (add_all l ss) = INITIAL_CAPACITY * 2 ^ k) ∧
  (capacity (add_all l ss) = INITIAL_CAPACITY ∨
   capacity (add_all l ss) < 2 * count (add_all l ss)).
Proof.
  induction ss as [|s ss IH]; intros l Hd Hpow Hbound; [done|].
  change (add_all l (s :: ss)) with (add_all (add_item l (Some s)) ss).
  destruct s as [|c s]; [by apply IH|].
  destruct (add_item_nonempty l c s Hd) as (Hc & _ & Hd').
  pose proof Hd as (Hle & _).
  apply IH; [done| |]; rewrite add_item_capacity, ?Hc;
    destruct (decide (capacity l ≤ count l)); try done.
  - destruct Hpow as [k ->]. exists (S k). rewrite Nat.pow_succ_r'. lia.
  - right. lia.
  - destruct Hbound as [->|?]; [by left|right; lia].
Qed.

(** X4. A list built from the new list by [add_item] calls alone has a
    capacity of 8 times a power of two, and, once it has outgrown the
    initial 8 slots, less than twice as many slots as items. *)
Theorem capacity_of_added_list (ss : list (list ascii)) :
  (∃ k, capacity (add_all create_list ss) = INITIAL_CAPACITY * 2 ^ k) ∧
  (capacity (add_all create_list ss) = INITIAL_CAPACITY ∨
   capacity (add_all create_list ss) < 2 * count (add_all create_list ss)) ∧
  count (add_all create_list ss) ≤ capacity (add_all create_list ss).
Proof.
  destruct (add_all_capacity ss create_list create_list_dense) as [H1 H2].
  - by exists 0.
  - by left.
  - split; [done|]. split; [done|].
    by destruct (add_all_dense ss create_list create_list_dense) as (? & _).
Qed.

(** ** Adding and removing *)

(** X5. Removing the item that was just added gives back the old items:
    on a dense list, [add_item] of a non-empty string followed by
    [remove_item] at the last position leaves the items as they were
    and prints nothing. *)
Theorem add_then_remove_last (l : ShoppingList) (c : ascii) (s : list ascii) (w : World) :
  dense l →
  contents (remove_item (add_item l (Some (c :: s))) (count l) w).1 = contents l ∧
  count (remove_item (add_item l (Some (c :: s))) (count l) w).1 = count l ∧
  (remove_item (add_item l (Some (c :: s))) (count l) w).2 = w.
Proof.
  intros Hd. destruct (add_item_nonempty l c s Hd) as (Hc & Hcont & Hd').
  pose proof Hd' as (Hle & Hlen & _). pose proof (dense_length l Hd) as Hl.
  split; [|split].
  - rewrite remove_item_contents by lia. rewrite Hcont.
    rewrite take_app_length' by done.
    rewrite drop_ge by (rewrite length_app; simpl; lia). by rewrite app_nil_r.
  - unfold remove_item.
    destruct (decide (count (add_item l (Some (c :: s))) ≤ count l)); [lia|].
    cbn [fst count]. lia.
  - unfold remove_item.
    by destruct (decide (count (add_item l (Some (c :: s))) ≤ count l)); [lia|].
Qed.

Lemma add_then_remove_last_witness :
  dense sample_list ∧
  contents (remove_item (add_item sample_list (Some (lit "jam"))) (count sample_list) quiet).1
  = contents sample_list.
Proof.
  assert (Hd : dense sample_list) by by_decision.
  split; [exact Hd|].
  exact (proj1 (add_then_remove_last sample_list "j"%char (lit "am") quiet Hd)).
Defined.

(** ** The /clear loop *)

Lemma clear_loop_spec n : ∀ l w,
  count l = n →
  count (clear_loop l w).1 = 0 ∧ capacity (clear_loop l w).1 = capacity l ∧
  (clear_loop l w).2 = w.
Proof.
  induction n as [|n IH]; intros l w Hn; rewrite clear_loop_eq;
    destruct (decide (count l = 0)) as [H0|H0]; try lia; [done|].
  assert (Hr : (remove_item l 0 w).2 = w ∧ count (remove_item l 0 w).1 = n).
  { unfold remove_item. destruct (decide (count l ≤ 0)); [lia|]. simpl. split; [done|lia]. }
  destruct Hr as [Hw Hc]. rewrite Hw.
  destruct (IH (remove_item l 0 w).1 w Hc) as (H1 & H2 & H3).
  by rewrite H1, H2, H3, remove_item_capacity.
Qed.

(** X6. The /clear loop always ends with an empty list: whatever the
    list, [count] is 0 afterwards and no item is left, the capacity is
    kept and nothing is printed by the loop; the /clear command returns
    1 after printing "Cleared the list", and [print_list] then prints
    the empty-list message. *)
Theorem clear_empties_list (l : ShoppingList) (w : World) :
  count (clear_loop l w).1 = 0 ∧ contents (clear_loop l w).1 = [] ∧
  capacity (clear_loop l w).1 = capacity l ∧ (clear_loop l w).2 = w ∧
  try_handle_command l (lit "/clear") w
  = Returned 1 (clear_loop l w).1 (print (lit "Cleared the list" ++ [NL]) w) ∧
  ∀ w', print_list (clear_loop l w).1 w' = print (lit "(shopping list is empty)" ++ [NL]) w'.
Proof.
  destruct (clear_loop_spec (count l) l w eq_refl) as (H1 & H2 & H3).
  split; [done|]. split; [unfold contents; by rewrite H1|]. split; [done|].
  split; [done|]. split.
  - unfold try_handle_command. change (negb (ascii_eqb "/" "/")) with false. cbv iota.
    change (strtok (take (BUFFER_SIZE - 1) (lit "/clear"))) with (Some (lit "/clear", @nil ascii)).
    change (streq (lit "/clear") "/view") with false.
    change (streq (lit "/clear") "/remove") with false.
    change (streq (lit "/clear") "/save") with false.
    change (streq (lit "/clear") "/load") with false.
    change (streq (lit "/clear") "/clear") with true. cbv iota.
    destruct (clear_loop l w) as [l' w'] eqn:E. simpl in H3. by subst w'.
  - intros w'. unfold print_list. by rewrite H1.
Qed.

(** ** What [print_list] prints *)

Lemma print_print a b w : print a (print b w) = print (b ++ a) w.
Proof. unfold print. simpl. by rewrite app_assoc. Qed.

Lemma for_loop_snoc {St : Type} n : ∀ i (body : nat → St → St) s,
  for_loop (S n) i body s = body (i + n) (for_loop n i body s).
Proof.
  induction n as [|n IH]; intros i body s.
  - simpl. by rewrite Nat.add_0_r.
  - change (for_loop (S (S n)) i body s) with (for_loop (S n) (S i) body (body i s)).
    rewrite IH. simpl. by replace (S (i + n)) with (i + S n) by lia.
Qed.

Lemma numbered_lines_snoc ts t :
  numbered_lines (ts ++ [t])
  = numbered_lines ts ++ fmt_zu (length ts + 1) ++ lit ". " ++ t ++ [NL].
Proof.
  unfold numbered_lines. rewrite imap_app, concat_app. simpl.
  by rewrite Nat.add_0_r, app_nil_r.
Qed.

Lemma print_loop_spec l w n :
  dense l → n ≤ count l →
  for_loop n 0
    (λ i w, print (fmt_zu (i + 1) ++ lit ". " ++ fmt_s (slot (items l) i) ++ [NL]) w) w
  = print (numbered_lines (take n (texts l))) w.
Proof.
  intros Hd. induction n as [|n IH]; intros Hn.
  - simpl. unfold print. simpl. rewrite app_nil_r. by destruct w.
  - rewrite for_loop_snoc, IH by lia. simpl.
    pose proof (length_contents l) as Hlen. pose proof Hd as (Hc & Hl & _).
    assert (Ht : length (texts l) = count l).
    { rewrite <- Hlen by lia. rewrite (dense_contents l Hd). by rewrite length_fmap. }
    destruct (lookup_lt_is_Some_2 (texts l) n) as [t Hlook]; [lia|].
    assert (Hslot : slot (items l) n = Some t).
    { unfold slot. replace (items l !! n) with (contents l !! n)
        by (unfold contents; apply lookup_take_lt; lia).
      rewrite (dense_contents l Hd), list_lookup_fmap, Hlook. done. }
    rewrite Hslot, (take_S_r _ _ _ Hlook), numbered_lines_snoc, print_print.
    rewrite length_take, Nat.min_l by lia. done.
Qed.

(** X7. [print_list] prints "(shopping list is empty)" for a list without
    items; otherwise it prints the header "Your shopping list:" and then
    one line per item, in list order, numbered 1, 2, ... up to [count].
    Only standard output is written. *)
Theorem print_list_output (l : ShoppingList) (w : World) :
  dense l →
  print_list l w
  = print (if decide (count l = 0) then lit "(shopping list is empty)" ++ [NL]
           else lit "Your shopping list:" ++ [NL] ++ numbered_lines (texts l)) w
  ∧ w_stderr (print_list l w) = w_stderr w ∧ w_fs (print_list l w) = w_fs w.
Proof.
  intros Hd.
  assert (H : print_list l w
    = print (if decide (count l = 0) then lit "(shopping list is empty)" ++ [NL]
             else lit "Your shopping list:" ++ [NL] ++ numbered_lines (texts l)) w).
  { unfold print_list. destruct (decide (count l = 0)); [done|].
    unfold for_range. rewrite Nat.sub_0_r, print_loop_spec by (done || lia).
    rewrite print_print. rewrite take_ge; [by rewrite <- app_assoc|].
    pose proof Hd as (Hc & Hl & _). pose proof (length_contents l) as Hlen.
    rewrite <- Hlen by lia. rewrite (dense_contents l Hd). by rewrite length_fmap. }
  rewrite H. done.
Qed.

Lemma print_list_output_witness :
  dense sample_list ∧
  w_stdout (print_list sample_list quiet)
  = lit "Your shopping list:" ++ [NL] ++ lit "1. milk" ++ [NL] ++ lit "2. eggs" ++ [NL]
    ++ lit "3. tea" ++ [NL].
Proof.
  assert (Hd : dense sample_list) by by_decision.
  split; [exact Hd|].
  rewrite (proj1 (print_list_output sample_list quiet Hd)). reflexivity.
Defined.

(** ** What [load_from_file] accepts *)

Lemma fgets_read_to_end room : ∀ s,
  no_newline s → length s ≤ room → fgets_read room s = (s, []).
Proof.
  induction room as [|r IH]; intros s Hs Hlen.
  - destruct s; [done | simpl in Hlen; lia].
  - destruct s as [|c s]; [done|]. simpl.
    apply Forall_cons in Hs as [Hc Hs]. unfold ascii_eqb.
    rewrite bool_decide_eq_false_2 by done.
    rewrite IH by (simpl in Hlen; done || lia). done.
Qed.

Lemma fgets_last_line s :
  no_newline s → s ≠ [] → length s ≤ 1023 → fgets BUFFER_SIZE s = Some (s, []).
Proof.
  intros Hs Hne Hlen. unfold fgets. rewrite BUFFER_SIZE_pred.
  generalize dependent 1023. intros room Hlen.
  rewrite fgets_read_to_end by done. by destruct s.
Qed.

Lemma blank_no_nul_app p pad : no_nul p → blank pad → no_nul (p ++ pad).
Proof. intros Hp Hpad. apply Forall_app. split; [done|by apply blank_no_nul]. Qed.

Lemma load_loop_padded_line p pad rest l :
  no_nul p → no_newline p → ends_in_text p = true →
  blank pad → no_newline pad → length (p ++ pad) < 1023 →
  load_loop (p ++ pad ++ NL :: rest) l = load_loop rest (add_item l (Some p)).
Proof.
  intros Hnul Hnl Hend Hpad Hpnl Hlen.
  destruct (ends_in_text_cons p Hend) as (c & t & Hp).
  rewrite app_assoc, load_loop_eq.
  rewrite fgets_line by (done || by apply Forall_app).
  rewrite c_str_no_nul.
  - rewrite <- !app_assoc, rtrim_app_blank.
    + by rewrite Hp.
    + apply Forall_app. split; [done|]. by repeat constructor.
    + by right.
  - apply Forall_app. split; [by apply blank_no_nul_app|]. by repeat constructor.
Qed.

Lemma load_loop_padded_blank pad rest l :
  blank pad → no_newline pad → length pad < 1023 →
  load_loop (pad ++ NL :: rest) l = load_loop rest l.
Proof.
  intros Hpad Hpnl Hlen. rewrite load_loop_eq, fgets_line by done.
  rewrite blank_trims_to_nil; [done|].
  apply Forall_app. split; [done|]. by repeat constructor.
Qed.

Lemma load_loop_last_line p pad l :
  no_nul p → no_newline p → ends_in_text p = true →
  blank pad → no_newline pad → length (p ++ pad) ≤ 1023 →
  load_loop (p ++ pad) l = add_item l (Some p).
Proof.
  intros Hnul Hnl Hend Hpad Hpnl Hlen.
  destruct (ends_in_text_cons p Hend) as (c & t & Hp).
  rewrite load_loop_eq, fgets_last_line; [|by apply Forall_app|by rewrite Hp|done].
  rewrite c_str_no_nul by by apply blank_no_nul_app.
  rewrite rtrim_app_blank by (done || by right).
  rewrite Hp. by rewrite load_loop_nil.
Qed.

(** X8. Loading is tolerant of line endings and padding. A line made of
    a text [p] (no NUL, no newline, ending in a byte that is not white
    space) followed by white space, for instance the carriage return of
    a "\r\n" ending, is stored as [p]; a line of white space only is
    skipped; and a last line that has no newline at all is stored like
    any other. Each line is assumed to fit the buffer. *)
Theorem load_tolerates_padding (p pad rest : list ascii) (l : ShoppingList) :
  no_nul p → no_newline p → ends_in_text p = true →
  blank pad → no_newline pad → length (p ++ pad) < 1023 →
  load_loop (p ++ pad ++ NL :: rest) l = load_loop rest (add_item l (Some p)) ∧
  load_loop (pad ++ NL :: rest) l = load_loop rest l ∧
  load_loop (p ++ pad) l = add_item l (Some p).
Proof.
  intros Hnul Hnl Hend Hpad Hpnl Hlen.
  split; [by apply load_loop_padded_line|]. split.
  - apply load_loop_padded_blank; [done..|]. rewrite length_app in Hlen. lia.
  - apply load_loop_last_line; [done..|]. lia.
Qed.

Lemma load_tolerates_padding_witness :
  ends_in_text (lit "tea") = true ∧ blank [CR] ∧
  load_loop (lit "tea" ++ [CR] ++ NL :: [NL] ++ lit "sugar")
    (add_item create_list (Some (lit "milk")))
  = load_loop ([NL] ++ lit "sugar")
      (add_item (add_item create_list (Some (lit "milk"))) (Some (lit "tea"))) ∧
  texts (load_loop (lit "tea" ++ [CR] ++ NL :: [NL] ++ lit "sugar")
           (add_item create_list (Some (lit "milk"))))
  = [lit "milk"; lit "tea"; lit "sugar"].
Proof.
  assert (Hb : blank [CR]) by by_decision.
  split; [reflexivity|]. split; [exact Hb|]. split; [|vm_compute; reflexivity].
  apply (load_tolerates_padding (lit "tea") [CR]); by_decision.
Defined.

(** ** Loading only appends *)




(** ** Tokens *)

Lemma token_word t : ∀ tail,
  word t → ends_word tail → token (t ++ tail) = (t, after_word tail).
Proof.
  induction t as [|c t IH]; intros tail Ht Htail.
  - destruct tail as [|d tail]; [done|]. simpl in *. by rewrite Htail.
  - apply Forall_cons in Ht as [Hc Ht]. simpl in Hc. simpl. rewrite Hc.
    by rewrite IH.
Qed.

Lemma skip_delims_word ds c s :
  delims ds → is_delim c = false → skip_delims (ds ++ c :: s) = c :: s.
Proof.
  intros Hds Hc. induction Hds as [|d ds Hd _ IH]; simpl; [by rewrite Hc|].
  by rewrite Hd.
Qed.

Lemma skip_delims_all ds : delims ds → skip_delims ds = [].
Proof. induction 1 as [|d ds Hd _ IH]; simpl; [done|]. by rewrite Hd. Qed.

Lemma strtok_word ds t tail :
  delims ds → word t → t ≠ [] → ends_word tail →
  strtok (ds ++ t ++ tail) = Some (t, after_word tail).
Proof.
  intros Hds Ht Hne Htail. destruct t as [|c t]; [done|].
  pose proof Ht as [Hc _]%Forall_cons. simpl in Hc.
  unfold strtok. change ((c :: t) ++ tail) with (c :: (t ++ tail)).
  rewrite skip_delims_word by done.
  change (c :: t ++ tail) with ((c :: t) ++ tail). by rewrite token_word.
Qed.

Lemma strtok_first t tail :
  word t → t ≠ [] → ends_word tail → strtok (t ++ tail) = Some (t, after_word tail).
Proof.
  intros Ht Hne Htail. apply (strtok_word [] t tail); [apply Forall_nil_2|done..].
Qed.

Lemma strtok_no_word ds : delims ds → strtok ds = None.
Proof. intros H. unfold strtok. by rewrite skip_delims_all. Qed.

Lemma delims_after_word pad : delims pad → delims (after_word pad).
Proof. intros H. by apply Forall_drop. Qed.

Lemma take_line (input : list ascii) :
  length input ≤ 1023 → take (BUFFER_SIZE - 1) input = input.
Proof. intros H. rewrite BUFFER_SIZE_pred. by apply take_ge. Qed.

(** The tokens of a line made of a command word, blanks and an
    argument. *)
Lemma strtok_command_argument cmdw pad name tail :
  word cmdw → cmdw ≠ [] → delims pad → pad ≠ [] → word name → name ≠ [] →
  ends_word tail → length (cmdw ++ pad ++ name ++ tail) ≤ 1023 →
  strtok (take (BUFFER_SIZE - 1) (cmdw ++ pad ++ name ++ tail))
  = Some (cmdw, after_word pad ++ name ++ tail) ∧
  strtok (after_word pad ++ name ++ tail) = Some (name, after_word tail).
Proof.
  intros Hc Hcne Hp Hpne Hn Hnne Ht Hlen. rewrite take_line by done. split.
  - destruct pad as [|d pad]; [done|]. pose proof Hp as [Hd _]%Forall_cons.
    by rewrite strtok_first.
  - apply strtok_word; auto using delims_after_word.
Qed.

Lemma strtok_command_alone cmdw pad :
  word cmdw → cmdw ≠ [] → delims pad → length (cmdw ++ pad) ≤ 1023 →
  strtok (take (BUFFER_SIZE - 1) (cmdw ++ pad)) = Some (cmdw, after_word pad) ∧
  strtok (after_word pad) = None.
Proof.
  intros Hc Hcne Hp Hlen. rewrite take_line by done. split.
  - rewrite strtok_first; [done..|].
    destruct pad as [|d pad]; [done|]. by apply Forall_cons in Hp as [? _].
  - apply strtok_no_word. by apply delims_after_word.
Qed.

Lemma remove_command l w input saved :
  first_is input "/"%char = true →
  strtok (take (BUFFER_SIZE - 1) input) = Some (lit "/remove", saved) →
  try_handle_command l input w
  = Returned 1 (cmd_remove l saved w).1 (cmd_remove l saved w).2.
Proof.
  intros [s ->]%first_is_true Hcmd. unfold try_handle_command.
  change (negb (ascii_eqb "/" "/")) with false. cbv iota. rewrite Hcmd.
  change (streq (lit "/remove") "/view") with false.
  change (streq (lit "/remove") "/remove") with true. cbv iota.
  by destruct (cmd_remove l saved w).
Qed.

Lemma save_command_usage l w input saved :
  first_is input "/"%char = true →
  strtok (take (BUFFER_SIZE - 1) input) = Some (lit "/save", saved) →
  strtok saved = None →
  try_handle_command l input w
  = Returned 1 l (print (lit "Usage: /save filename" ++ [NL]) w).
Proof.
  intros [s ->]%first_is_true Hcmd Harg. unfold try_handle_command.
  change (negb (ascii_eqb "/" "/")) with false. cbv iota. rewrite Hcmd.
  change (streq (lit "/save") "/view") with false.
  change (streq (lit "/save") "/remove") with false.
  change (streq (lit "/save") "/save") with true. cbv iota. by rewrite Harg.
Qed.

Lemma load_command_usage l w input saved :
  first_is input "/"%char = true →
  strtok (take (BUFFER_SIZE - 1) input) = Some (lit "/load", saved) →
  strtok saved = None →
  try_handle_command l input w
  = Returned 1 l (print (lit "Usage: /load filename" ++ [NL]) w).
Proof.
  intros [s ->]%first_is_true Hcmd Harg. unfold try_handle_command.
  change (negb (ascii_eqb "/" "/")) with false. cbv iota. rewrite Hcmd.
  change (streq (lit "/load") "/view") with false.
  change (streq (lit "/load") "/remove") with false.
  change (streq (lit "/load") "/save") with false.
  change (streq (lit "/load") "/load") with true. cbv iota. by rewrite Harg.
Qed.

(** X10. Blanks between a command and its argument do not matter and
    whatever follows the argument is ignored: a line made of /save,
    /load or /remove, one or more spaces or tabs, an argument word and
    then nothing or a blank and anything acts on that argument alone. *)
Theorem argument_is_second_token (l : ShoppingList) (w : World)
    (pad name tail : list ascii) :
  delims pad → pad ≠ [] → word name → name ≠ [] → ends_word tail →
  length (pad ++ name ++ tail) ≤ 1016 →
  try_handle_command l (lit "/save" ++ pad ++ name ++ tail) w
  = Returned 1 l (save_to_file l name w) ∧
  try_handle_command l (lit "/load" ++ pad ++ name ++ tail) w
  = Returned 1 (load_from_file l name w).1 (load_from_file l name w).2 ∧
  try_handle_command l (lit "/remove" ++ pad ++ name ++ tail) w
  = (if decide (strtol name ≤ 0)%Z
     then Returned 1 l (print (lit "Specify a positive index" ++ [NL]) w)
     else Returned 1 (remove_item l (Z.to_nat (strtol name - 1)) w).1
            (remove_item l (Z.to_nat (strtol name - 1)) w).2).
Proof.
  intros Hp Hpne Hn Hnne Ht Hlen.
  assert (Htok : ∀ cmdw, word (lit cmdw) → lit cmdw ≠ [] → length (lit cmdw) ≤ 7 →
    strtok (take (BUFFER_SIZE - 1) (lit cmdw ++ pad ++ name ++ tail))
    = Some (lit cmdw, after_word pad ++ name ++ tail) ∧
    strtok (after_word pad ++ name ++ tail) = Some (name, after_word tail)).
  { intros cmdw Hw Hne Hl. apply strtok_command_argument; try done.
    rewrite length_app. lia. }
  split; [|split].
  - destruct (Htok "/save"%string) as [H1 H2]; [by_decision|done|simpl; lia|].
    eapply save_command; [reflexivity | exact H1 | exact H2].
  - destruct (Htok "/load"%string) as [H1 H2]; [by_decision|done|simpl; lia|].
    eapply load_command; [reflexivity | exact H1 | exact H2].
  - destruct (Htok "/remove"%string) as [H1 H2]; [by_decision|done|simpl; lia|].
    rewrite (remove_command l w (lit "/remove" ++ pad ++ name ++ tail) _ eq_refl H1).
    rewrite (cmd_remove_spec _ _ _ _ _ H2). by destruct (decide (strtol name ≤ 0)%Z).
Qed.

Lemma argument_is_second_token_witness :
  delims [" "%char; TAB] ∧ word (lit "out.txt") ∧ ends_word (lit " and more") ∧
  try_handle_command sample_list
    (lit "/save" ++ [" "%char; TAB] ++ lit "out.txt" ++ lit " and more") quiet
  = Returned 1 sample_list (save_to_file sample_list (lit "out.txt") quiet).
Proof.
  split; [by_decision|]. split; [by_decision|]. split; [by_decision|].
  apply (argument_is_second_token sample_list quiet [" "%char; TAB] (lit "out.txt")
           (lit " and more")); try by_decision; done.
Defined.

(** X11. A /save or /load without an argument, with or without blanks
    after the command, prints its usage line and does nothing else: the
    list and the files stay as they are and the line counts as handled;
    /remove without an argument behaves alike. *)
Theorem missing_argument_prints_usage (l : ShoppingList) (w : World) (pad : list ascii) :
  delims pad → length pad ≤ 1016 →
  try_handle_command l (lit "/save" ++ pad) w
  = Returned 1 l (print (lit "Usage: /save filename" ++ [NL]) w) ∧
  try_handle_command l (lit "/load" ++ pad) w
  = Returned 1 l (print (lit "Usage: /load filename" ++ [NL]) w) ∧
  try_handle_command l (lit "/remove" ++ pad) w
  = Returned 1 l (print (lit "Usage: /remove INDEX" ++ [NL]) w).
Proof.
  intros Hp Hlen.
  assert (Htok : ∀ cmdw, word (lit cmdw) → lit cmdw ≠ [] → length (lit cmdw) ≤ 7 →
    strtok (take (BUFFER_SIZE - 1) (lit cmdw ++ pad)) = Some (lit cmdw, after_word pad) ∧
    strtok (after_word pad) = None).
  { intros cmdw Hw Hne Hl. apply strtok_command_alone; try done.
    rewrite length_app. lia. }
  split; [|split].
  - destruct (Htok "/save"%string) as [H1 H2]; [by_decision|done|simpl; lia|].
    eapply save_command_usage; [reflexivity | exact H1 | exact H2].
  - destruct (Htok "/load"%string) as [H1 H2]; [by_decision|done|simpl; lia|].
    eapply load_command_usage; [reflexivity | exact H1 | exact H2].
  - destruct (Htok "/remove"%string) as [H1 H2]; [by_decision|done|simpl; lia|].
    rewrite (remove_command l w (lit "/remove" ++ pad) _ eq_refl H1).
    unfold cmd_remove. by rewrite H2.
Qed.

Lemma missing_argument_prints_usage_witness :
  delims [" "%char; " "%char] ∧
  try_handle_command sample_list (lit "/load" ++ [" "%char; " "%char]) quiet
  = Returned 1 sample_list (print (lit "Usage: /load filename" ++ [NL]) quiet).
Proof.
  split; [by_decision|].
  apply (missing_argument_prints_usage sample_list quiet [" "%char; " "%char]);
    [by_decision | simpl; lia].
Defined.

(** ** What a command may change *)

Lemma for_loop_keeps {St : Type} (Q : St → Prop) (body : nat → St → St) n : ∀ i s,
  (∀ j s', Q s' → Q (body j s')) → Q s → Q (for_loop n i body s).
Proof.
  induction n as [|n IH]; intros i s Hbody Hs; [done|]. simpl. apply IH; auto.
Qed.

Lemma print_list_files l w : w_fs (print_list l w) = w_fs w.
Proof.
  unfold print_list. destruct (decide (count l = 0)); [done|]. unfold for_range.
  by apply (for_loop_keeps (λ w', w_fs w' = w_fs w)).
Qed.

Lemma remove_item_files l i w : w_fs (remove_item l i w).2 = w_fs w.
Proof. unfold remove_item. by destruct (decide (count l ≤ i)). Qed.

Lemma cmd_remove_files l saved w : w_fs (cmd_remove l saved w).2 = w_fs w.
Proof.
  unfold cmd_remove. destruct (strtok saved) as [[arg ?]|]; [|done].
  destruct (decide (strtol arg ≤ 0)%Z); [done|apply remove_item_files].
Qed.

Lemma load_from_file_files l name w : w_fs (load_from_file l name w).2 = w_fs w.
Proof. unfold load_from_file. by destruct (fopen_r (w_fs w) name). Qed.

Lemma streq_true a b : streq a b = true → a = lit b.
Proof. unfold streq. by intros ?%bool_decide_eq_true. Qed.

(** X12. Each command changes only what it is for. When a command
    returns, the files are as before unless its first token is /save,
    and the list is the same unless the token is /remove, /load or
    /clear; when it ends the process, the token is /quit, the status is
    success and no file was changed. *)
Theorem commands_change_only_their_state (l : ShoppingList) (input : list ascii) (w : World) :
  (∀ ret l' w', try_handle_command l input w = Returned ret l' w' →
     (command_word input ≠ Some (lit "/save") → w_fs w' = w_fs w) ∧
     (command_word input ≠ Some (lit "/remove") →
      command_word input ≠ Some (lit "/load") →
      command_word input ≠ Some (lit "/clear") → l' = l)) ∧
  (∀ status w', try_handle_command l input w = Exited status w' →
     command_word input = Some (lit "/quit") ∧ status = EXIT_SUCCESS ∧ w_fs w' = w_fs w).
Proof.
  unfold try_handle_command, command_word.
  destruct input as [|c s]; [split; [by intros ? ? ? [= _ <- <-]|done]|].
  destruct (negb (ascii_eqb c "/")); [split; [by intros ? ? ? [= _ <- <-]|done]|].
  destruct (strtok _) as [[cmd saved]|]; [|split; [by intros ? ? ? [= _ <- <-]|done]].
  cbn [fmap option_fmap option_map fst].
  destruct (streq cmd "/view") eqn:E1.
  { split; [|done]. intros ? ? ? [= _ <- <-]. split; [by rewrite print_list_files|done]. }
  destruct (streq cmd "/remove") eqn:E2.
  { apply streq_true in E2 as ->. split; [|by destruct (cmd_remove l saved w)].
    intros ret l' w' H. pose proof (cmd_remove_files l saved w) as Hf.
    destruct (cmd_remove l saved w). injection H as _ <- <-. done. }
  destruct (streq cmd "/save") eqn:E3.
  { apply streq_true in E3 as ->. split; [|by destruct (strtok saved) as [[? ?]|]].
    intros ret l' w' H.
    destruct (strtok saved) as [[arg ?]|]; injection H as _ <- <-; done. }
  destruct (streq cmd "/load") eqn:E4.
  { apply streq_true in E4 as ->. split.
    - intros ret l' w' H. destruct (strtok saved) as [[arg ?]|].
      + pose proof (load_from_file_files l arg w) as Hf.
        destruct (load_from_file l arg w). injection H as _ <- <-. done.
      + injection H as _ <- <-. done.
    - destruct (strtok saved) as [[arg ?]|]; [|done].
      by destruct (load_from_file l arg w). }
  destruct (streq cmd "/clear") eqn:E5.
  { apply streq_true in E5 as ->. split; [|by destruct (clear_loop l w)].
    intros ret l' w' H. destruct (clear_loop_spec (count l) l w eq_refl) as (_ & _ & Hw).
    destruct (clear_loop l w). injection H as _ <- <-. simpl in Hw. by subst. }
  destruct (streq cmd "/help") eqn:E6.
  { split; [|done]. by intros ? ? ? [= _ <- <-]. }
  destruct (streq cmd "/quit") eqn:E7.
  { apply streq_true in E7 as ->. split; [done|]. by intros ? ? [= <- <-]. }
  split; [|done]. by intros ? ? ? [= _ <- <-].
Qed.

Lemma commands_change_only_their_state_witness :
  command_word (lit "/remove 1") ≠ Some (lit "/save") ∧
  ∀ ret l' w', try_handle_command sample_list (lit "/remove 1") quiet = Returned ret l' w' →
               w_fs w' = w_fs quiet.
Proof.
  assert (H : command_word (lit "/remove 1") ≠ Some (lit "/save"))
    by (intros E; vm_compute in E; discriminate E).
  split; [exact H|]. intros ret l' w' E.
  exact (proj1 (proj1 (commands_change_only_their_state sample_list (lit "/remove 1") quiet)
                  ret l' w' E) H).
Defined.

(** ** How a run ends *)

Lemma try_handle_command_exit l input w status w' :
  try_handle_command l input w = Exited status w' → status = EXIT_SUCCESS.
Proof.
  intros H. destruct (first_is input "/"%char) eqn:E.
  - destruct (try_handle_command_handled l input w E) as [(? & ? & H')|(? & _ & H')];
      rewrite H' in H; [discriminate H|by injection H as <- _].
  - rewrite try_handle_command_not_command in H by done. discriminate H.
Qed.

Lemma interact_quit_status input : ∀ st l w status w',
  interact st input l w = Quit status w' → status = EXIT_SUCCESS.
Proof.
  induction input as [input IH] using length_ind. intros st l w status w'.
  destruct st.
  - rewrite interact_item_eq.
    destruct (fgets BUFFER_SIZE input) as [[buf rest]|] eqn:E; [|done].
    pose proof (fgets_shorter _ _ _ E) as Hlt. cbv zeta.
    destruct (rtrim (c_str buf)) as [|c s] eqn:Es; [by apply IH|].
    destruct (try_handle_command _ _ _) as [ret l2 w2|st2 w2] eqn:Ec.
    + destruct (decide (ret = 0)%Z); by apply IH.
    + intros [= <- _]. by eapply try_handle_command_exit.
  - rewrite interact_confirm_eq.
    destruct (fgets BUFFER_SIZE input) as [[buf rest]|] eqn:E; [|done].
    pose proof (fgets_shorter _ _ _ E) as Hlt. cbv zeta.
    destruct (rtrim (c_str buf)) as [|c s] eqn:Es; [by apply IH|].
    destruct (_ || _); [by apply IH|].
    destruct (_ || _); [done|].
    destruct (first_is _ _); [|by apply IH].
    destruct (try_handle_command _ _ _) as [ret l2 w2|st2 w2] eqn:Ec.
    + destruct (decide (ret = 0)%Z); by apply IH.
    + intros [= <- _]. by eapply try_handle_command_exit.
Qed.

(** X13. Whatever is typed and whatever the files hold, [main] ends with
    exit status 0: both the end of the dialogue (end of input or an
    answer n) and /quit report success. *)
Theorem main_exit_status (stdin : list ascii) (fs : FileSystem) :
  (main stdin fs).1 = 0%Z.
Proof.
  unfold main. cbv zeta.
  destruct (interact _ _ _ _) as [l w|status w] eqn:E; [done|].
  simpl. by eapply interact_quit_status.
Qed.



Lemma quit_command l input w :
  first_is input "/"%char = true → command_word input = Some (lit "/quit") →
  try_handle_command l input w = Exited EXIT_SUCCESS (print (lit "Goodbye!" ++ [NL]) w).
Proof.
  intros [s ->]%first_is_true. unfold command_word, try_handle_command.
  change (negb (ascii_eqb "/" "/")) with false. cbv iota.
  destruct (strtok _) as [[cmd saved]|]; [|done]. intros [= ->]. reflexivity.
Qed.

(** X15. /quit ends the process at once, at either prompt: the line is
    answered with "Goodbye!", the status is success, nothing more is
    read, and the final list is not printed. When /quit is the first
    line, the whole output is the banner, the prompt and "Goodbye!". *)
Theorem quit_ends_the_process (l : ShoppingList) (w : World) (st : loop_state)
    (stream buf rest input : list ascii) :
  fgets BUFFER_SIZE stream = Some (buf, rest) → rtrim (c_str buf) = input →
  first_is input "/"%char = true → command_word input = Some (lit "/quit") →
  interact st stream l w
  = Quit EXIT_SUCCESS (print (lit "Goodbye!" ++ [NL]) (print (prompt_of st) w)) ∧
  ∀ fs, main stream fs
        = (0%Z, print (lit "Goodbye!" ++ [NL])
                  (print item_prompt
                     (print banner {| w_stdout := []; w_stderr := []; w_fs := fs |}))).
Proof.
  intros Hget Hs Hfirst Hcmd.
  pose proof Hfirst as [t Ht]%first_is_true.
  assert (Hi : ∀ st l w, interact st stream l w
             = Quit EXIT_SUCCESS (print (lit "Goodbye!" ++ [NL]) (print (prompt_of st) w))).
  { intros st0 l0 w0. rewrite (interact_command st0 stream buf rest t) by congruence.
    rewrite <- Ht. by rewrite quit_command. }
  split; [apply Hi|]. intros fs. unfold main. cbv zeta. by rewrite Hi.
Qed.

Lemma quit_ends_the_process_witness :
  fgets BUFFER_SIZE (lit "/quit now" ++ [NL] ++ lit "milk")
  = Some (lit "/quit now" ++ [NL], lit "milk") ∧
  command_word (lit "/quit now") = Some (lit "/quit") ∧
  interact AwaitingConfirmation (lit "/quit now" ++ [NL] ++ lit "milk") sample_list quiet
  = Quit EXIT_SUCCESS (print (lit "Goodbye!" ++ [NL]) (print confirm_prompt quiet)).
Proof.
  assert (Hget : fgets BUFFER_SIZE (lit "/quit now" ++ [NL] ++ lit "milk")
                 = Some (lit "/quit now" ++ [NL], lit "milk")) by (vm_compute; reflexivity).
  assert (Hcmd : command_word (lit "/quit now") = Some (lit "/quit"))
    by (vm_compute; reflexivity).
  split; [exact Hget|]. split; [exact Hcmd|].
  exact (proj1 (quit_ends_the_process sample_list quiet AwaitingConfirmation _ _ _
                  (lit "/quit now") Hget eq_refl eq_refl Hcmd)).
Defined.

(** ** Lists the program builds can be saved and loaded back *)

(** X16. Every list the dialogue reaches survives a save and a load: if
    the interaction starts from a list whose items are all [storable]
    (the new list is one) and ends at [done] with the list [l], then the
    items of [l] are [storable] too, and saving [l] to a file that can
    be opened and loading that file into a new list gives the items of
    [l] back exactly. *)
Theorem reached_lists_load_back (st : loop_state) (input : list ascii)
    (l0 l : ShoppingList) (w w' w2 : World) (name : list ascii) :
  well_stored l0 → interact st input l0 w = Done l w' →
  fopen_error (w_fs w2) name = None →
  well_stored l ∧
  contents (load_from_file create_list name (save_to_file l name w2)).1 = contents l.
Proof.
  intros H0 Hrun Hopen.
  assert (Hl : well_stored l)
    by exact (interact_preserves well_stored well_stored_add well_stored_remove
                input st l0 w l w' H0 Hrun).
  split; [done|]. destruct Hl as [Hd Hst].
  rewrite load_from_saved by done.
  destruct (load_loop_lines (texts l) create_list Hst create_list_dense) as (D1 & T1 & _).
  by rewrite (dense_contents _ D1), T1, (dense_contents _ Hd).
Qed.

Lemma reached_lists_load_back_witness :
  well_stored create_list ∧
  interact AwaitingItem (lit "milk  " ++ [NL] ++ lit "n") create_list quiet
  = Done (add_item create_list (Some (lit "milk")))
      (print confirm_prompt
         (print (lit "Added: milk" ++ [NL]) (print item_prompt quiet))) ∧
  contents (load_from_file create_list (lit "f")
              (save_to_file (add_item create_list (Some (lit "milk"))) (lit "f") quiet)).1
  = contents (add_item create_list (Some (lit "milk"))).
Proof.
  assert (H0 : well_stored create_list) by by_decision.
  assert (Hrun : interact AwaitingItem (lit "milk  " ++ [NL] ++ lit "n") create_list quiet
                 = Done (add_item create_list (Some (lit "milk")))
                     (print confirm_prompt
                        (print (lit "Added: milk" ++ [NL]) (print item_prompt quiet))))
    by (vm_compute; reflexivity).
  split; [exact H0|]. split; [exact Hrun|].
  exact (proj2 (reached_lists_load_back _ _ _ _ _ _ quiet (lit "f") H0 Hrun eq_refl)).
Defined.

(** ** The numbers shown by [print_list] and read by /remove *)

Lemma isdigit_not_delim c : isdigit c = true → is_delim c = false.
Proof. destruct c as [[] [] [] [] [] [] [] []]; (reflexivity || discriminate). Qed.

Lemma uint_digits d : Forall (λ c, isdigit c = true) (lit (NilEmpty.string_of_uint d)).
Proof. induction d; simpl; constructor; done. Qed.

Lemma uint_value d : ∀ a tail,
  starts_with_digit tail = false →
  strtol_digits (Z.of_nat a) (lit (NilEmpty.string_of_uint d) ++ tail)
  = Z.of_nat (Nat.of_uint_acc d a).
Proof.
  induction d as [|d IHd|d IHd|d IHd|d IHd|d IHd|d IHd|d IHd|d IHd|d IHd|d IHd];
    intros a tail Htail;
    [by apply strtol_digits_stop|..];
    cbn [NilEmpty.string_of_uint lit String.list_ascii_of_string app strtol_digits
         Nat.of_uint_acc];
    match goal with
    | |- context [isdigit ?c] => change (isdigit c) with true; cbv iota
    end;
    rewrite Nat.tail_mul_spec, <- (IHd _ tail Htail); f_equal;
    unfold digit_val;
    match goal with
    | |- context [nat_of_ascii ?c] =>
        let v := eval vm_compute in (nat_of_ascii c) in change (nat_of_ascii c) with v
    end; lia.
Qed.

Lemma fmt_zu_value n tail :
  starts_with_digit tail = false → strtol_digits 0 (fmt_zu n ++ tail) = Z.of_nat n.
Proof.
  intros Htail. rewrite <- (DecimalNat.Unsigned.of_to n) at 2. unfold fmt_zu.
  generalize (Nat.to_uint n). intros u.
  destruct u; try apply (uint_value _ 0 tail Htail).
  cbn. by rewrite strtol_digits_stop.
Qed.

Lemma fmt_zu_digits n : ∃ d ds, fmt_zu n = d :: ds ∧ Forall (λ c, isdigit c = true) (d :: ds).
Proof.
  unfold fmt_zu. destruct (Nat.to_uint n) as [|u|u|u|u|u|u|u|u|u|u] eqn:E;
    try (eexists _, _; split; [reflexivity|];
         constructor; [done|apply uint_digits]).
  eexists _, _. split; [reflexivity|]. by repeat constructor.
Qed.

Lemma digits_word ds : Forall (λ c, isdigit c = true) ds → word ds.
Proof. intros H. eapply Forall_impl; [exact H|]. apply isdigit_not_delim. Qed.

Lemma strtol_fmt_zu n : strtol (fmt_zu n) = Z.min LONG_MAX (Z.of_nat n).
Proof.
  destruct (fmt_zu_digits n) as (d & ds & Heq & Hds).
  pose proof (strtol_leading_digits d ds [] Hds eq_refl) as H.
  rewrite app_nil_r in H. rewrite Heq, H. f_equal.
  unfold decimal. rewrite <- (strtol_digits_run (d :: ds) 0 []) by done.
  rewrite <- Heq. by apply fmt_zu_value.
Qed.

(** The number of digits [print_list] writes for a number that fits a
    [long]. *)
Lemma succ_size d :
  Decimal.nb_digits (Decimal.Little.succ d) = Decimal.nb_digits d ∨
  (Decimal.nb_digits (Decimal.Little.succ d) = S (Decimal.nb_digits d) ∧
   S (DecimalNat.Unsigned.of_lu d) = 10 ^ Decimal.nb_digits d).
Proof.
  induction d as [|d IHd|d IHd|d IHd|d IHd|d IHd|d IHd|d IHd|d IHd|d IHd|d IHd];
    try (by left); [by right|].
  cbn [Decimal.Little.succ Decimal.nb_digits DecimalNat.Unsigned.of_lu].
  destruct IHd as [->|[-> H]]; [by left|right].
  split; [done|]. rewrite Nat.pow_succ_r'. lia.
Qed.

Lemma to_lu_size n :
  10 ^ (Decimal.nb_digits (DecimalNat.Unsigned.to_lu n) - 1) ≤ n + 1.
Proof.
  induction n as [|n IH]; [simpl; lia|].
  cbn [DecimalNat.Unsigned.to_lu].
  destruct (succ_size (DecimalNat.Unsigned.to_lu n)) as [->|[-> H]]; [lia|].
  rewrite DecimalNat.Unsigned.of_to_lu in H.
  replace (S (Decimal.nb_digits (DecimalNat.Unsigned.to_lu n)) - 1)
    with (Decimal.nb_digits (DecimalNat.Unsigned.to_lu n)) by lia.
  lia.
Qed.

Lemma length_uint_string d :
  length (lit (NilEmpty.string_of_uint d)) = Decimal.nb_digits d.
Proof. induction d; simpl; by f_equal. Qed.

Lemma length_fmt_zu n : (Z.of_nat n ≤ LONG_MAX)%Z → length (fmt_zu n) ≤ 19.
Proof.
  intros Hn. pose proof (to_lu_size n) as Hsize.
  assert (Hlen : length (fmt_zu n)
                 ≤ Nat.max 1 (Decimal.nb_digits (DecimalNat.Unsigned.to_lu n))).
  { unfold fmt_zu. rewrite <- DecimalFacts.nb_digits_rev.
    fold (Decimal.rev (DecimalNat.Unsigned.to_lu n)).
    rewrite <- DecimalNat.Unsigned.to_uint_alt. generalize (Nat.to_uint n). intros u.
    destruct u; try (unfold NilZero.string_of_uint; rewrite length_uint_string; lia).
    simpl. lia. }
  destruct (decide (Decimal.nb_digits (DecimalNat.Unsigned.to_lu n) ≤ 19)) as [|Hbig];
    [lia|exfalso].
  assert (H19 : 10 ^ 19 ≤ n + 1).
  { etrans; [|exact Hsize]. apply Nat.pow_le_mono_r; lia. }
  apply Nat2Z.inj_le in H19. rewrite Nat2Z.inj_pow in H19.
  unfold LONG_MAX in Hn. lia.
Qed.

Lemma remove_line l w arg :
  word arg → arg ≠ [] → length arg ≤ 1015 →
  try_handle_command l (lit "/remove " ++ arg) w
  = (if decide (strtol arg ≤ 0)%Z
     then Returned 1 l (print (lit "Specify a positive index" ++ [NL]) w)
     else Returned 1 (remove_item l (Z.to_nat (strtol arg - 1)) w).1
            (remove_item l (Z.to_nat (strtol arg - 1)) w).2).
Proof.
  intros Hw Hne Hlen.
  destruct (strtok_command_argument (lit "/remove") [" "%char] arg [])
    as [H1 H2]; [by_decision|done|by_decision|done|done|done|done| |].
  { rewrite !length_app. simpl. lia. }
  rewrite app_nil_r in H1, H2. simpl in H1, H2.
  change (lit "/remove " ++ arg) with (lit "/remove" ++ " "%char :: arg).
  rewrite (remove_command l w (lit "/remove" ++ " "%char :: arg) _ eq_refl H1).
  rewrite (cmd_remove_spec _ _ _ _ _ H2). by destruct (decide (strtol arg ≤ 0)%Z).
Qed.

(** X17. The numbers [print_list] shows are the numbers /remove takes:
    for 1 <= k <= count, the line "/remove k" with [k] written as
    [print_list] writes it removes exactly the item shown at position
    [k] and prints nothing, provided [k] fits a [long]. *)
Theorem remove_by_shown_number (l : ShoppingList) (w : World) (k : nat) :
  dense l → 1 ≤ k → k ≤ count l → (Z.of_nat k ≤ LONG_MAX)%Z →
  strtol (fmt_zu k) = Z.of_nat k ∧
  ∃ l', try_handle_command l (lit "/remove " ++ fmt_zu k) w = Returned 1 l' w ∧
        contents l' = take (k - 1) (contents l) ++ drop k (contents l) ∧
        S (count l') = count l.
Proof.
  intros Hd Hk1 Hk Hmax. pose proof (length_fmt_zu k Hmax) as Hlen.
  assert (Hv : strtol (fmt_zu k) = Z.of_nat k) by (rewrite strtol_fmt_zu; lia).
  split; [done|].
  destruct (fmt_zu_digits k) as (d & ds & Heq & Hds).
  rewrite remove_line; [|rewrite Heq; by apply digits_word|by rewrite Heq|lia].
  rewrite Hv, decide_False by lia.
  replace (Z.to_nat (Z.of_nat k - 1)) with (k - 1) by lia.
  pose proof Hd as (Hc & Hl & _).
  exists (remove_item l (k - 1) w).1. split; [|split].
  - f_equal. unfold remove_item. by destruct (decide (count l ≤ k - 1)); [lia|].
  - rewrite remove_item_contents by lia. by replace (S (k - 1)) with k by lia.
  - unfold remove_item. destruct (decide (count l ≤ k - 1)); [lia|]. simpl. lia.
Qed.

Lemma remove_by_shown_number_witness :
  dense sample_list ∧ strtol (fmt_zu 2) = 2%Z ∧
  ∃ l', try_handle_command sample_list (lit "/remove " ++ fmt_zu 2) quiet
        = Returned 1 l' quiet ∧
        contents l' = take 1 (contents sample_list) ++ drop 2 (contents sample_list) ∧
        S (count l') = count sample_list.
Proof.
  assert (Hd : dense sample_list) by by_decision.
  split; [exact Hd|].
  apply (remove_by_shown_number sample_list quiet 2 Hd); vm_compute; lia || discriminate.
Defined.

(** X18. A number beyond the end of the list is refused, however large:
    when the argument of /remove is a run of digits whose value exceeds
    [count], the program prints "Invalid index" and leaves the list
    unchanged, also when the value does not fit a [long] (it is clamped,
    not wrapped). *)
Theorem remove_beyond_count (l : ShoppingList) (w : World) (d : ascii) (ds : list ascii) :
  Forall (λ c, isdigit c = true) (d :: ds) →
  (Z.of_nat (count l) < decimal (d :: ds))%Z → (Z.of_nat (count l) < LONG_MAX)%Z →
  length (d :: ds) ≤ 1015 →
  try_handle_command l (lit "/remove " ++ d :: ds) w
  = Returned 1 l (print (lit "Invalid index" ++ [NL]) w).
Proof.
  intros Hds Hbig Hmax Hlen.
  rewrite remove_line; [|by apply digits_word|done|done].
  pose proof (strtol_leading_digits d ds [] Hds eq_refl) as Hv.
  rewrite app_nil_r in Hv. rewrite Hv.
  rewrite decide_False by lia.
  by rewrite remove_item_out_of_range by lia.
Qed.

Lemma remove_beyond_count_witness :
  Forall (λ c, isdigit c = true) (lit "99999999999999999999") ∧
  (LONG_MAX < decimal (lit "99999999999999999999"))%Z ∧
  try_handle_command sample_list (lit "/remove " ++ lit "99999999999999999999") quiet
  = Returned 1 sample_list (print (lit "Invalid index" ++ [NL]) quiet).
Proof.
  assert (Hds : Forall (λ c, isdigit c = true) (lit "99999999999999999999")) by by_decision.
  split; [exact Hds|]. split; [vm_compute; reflexivity|].
  apply (remove_beyond_count sample_list quiet "9"%char (lit "9999999999999999999") Hds);
    vm_compute; (reflexivity || lia).
Defined.

(** ** Loading one file after another *)

Lemma fgets_read_app room : ∀ f1 f2,
  last f1 = Some NL →
  fgets_read room (f1 ++ f2)
  = ((fgets_read room f1).1, (fgets_read room f1).2 ++ f2).
Proof.
  induction room as [|r IH]; intros f1 f2 Hlast.
  - by destruct f1.
  - destruct f1 as [|c s]; [done|]. cbn [app fgets_read].
    destruct (ascii_eqb c NL) eqn:Ec; [done|].
    assert (Hs : last s = Some NL).
    { destruct s as [|c' s']; [|by rewrite last_cons_cons in Hlast].
      simpl in Hlast. injection Hlast as ->. unfold ascii_eqb in Ec.
      by rewrite bool_decide_eq_true_2 in Ec. }
    rewrite (IH s f2 Hs). by destruct (fgets_read r s).
Qed.

Lemma fgets_complete_lines f1 buf rest :
  complete_lines f1 → fgets BUFFER_SIZE f1 = Some (buf, rest) → complete_lines rest.
Proof.
  intros [->|Hlast] Hget; [done|].
  apply fgets_bound in Hget as [_ ->].
  destruct rest as [|c r]; [by left|right].
  by rewrite last_app_cons in Hlast.
Qed.

Lemma fgets_app f1 f2 buf rest :
  last f1 = Some NL → fgets BUFFER_SIZE f1 = Some (buf, rest) →
  fgets BUFFER_SIZE (f1 ++ f2) = Some (buf, rest ++ f2).
Proof.
  unfold fgets. generalize (BUFFER_SIZE - 1). intros room Hlast.
  destruct f1 as [|c s]; [done|]. intros [= H].
  change ((c :: s) ++ f2) with (c :: (s ++ f2)). cbv iota.
  change (c :: (s ++ f2)) with ((c :: s) ++ f2).
  by rewrite fgets_read_app, H.
Qed.

(** X19. Loading a file that is two files put one after the other gives
    the same list as loading the first and then the second, provided the
    first is empty or ends with a newline. *)
Theorem load_of_joined_files (f1 f2 : list ascii) (l : ShoppingList) :
  complete_lines f1 → load_loop (f1 ++ f2) l = load_loop f2 (load_loop f1 l).
Proof.
  revert l. induction f1 as [f1 IH] using length_ind. intros l Hf1.
  destruct Hf1 as [->|Hlast]; [by rewrite load_loop_nil|].
  rewrite (load_loop_eq f1).
  destruct (fgets BUFFER_SIZE f1) as [[buf rest]|] eqn:E.
  - pose proof (fgets_shorter _ _ _ E) as Hlt.
    pose proof (fgets_complete_lines f1 buf rest (or_intror Hlast) E) as Hrest.
    rewrite load_loop_eq, (fgets_app f1 f2 buf rest Hlast E).
    destruct (rtrim (c_str buf)); by apply IH.
  - destruct f1; [done|]. unfold fgets in E. discriminate E.
Qed.

Lemma load_of_joined_files_witness :
  complete_lines (lit "tea" ++ [NL]) ∧
  load_loop ((lit "tea" ++ [NL]) ++ lit "sugar") sample_list
  = load_loop (lit "sugar") (load_loop (lit "tea" ++ [NL]) sample_list).
Proof.
  assert (H : complete_lines (lit "tea" ++ [NL])) by (right; reflexivity).
  split; [exact H|]. exact (load_of_joined_files _ (lit "sugar") sample_list H).
Defined.

(** ** A whole dialogue *)

Lemma read_line t rest :
  storable t → length t < 1023 →
  fgets BUFFER_SIZE (t ++ NL :: rest) = Some (t ++ [NL], rest) ∧
  rtrim (c_str (t ++ [NL])) = t.
Proof.
  intros (Hnul & Hnl & Hend & _) Hlen. split; [by apply fgets_line|].
  rewrite c_str_no_nul by (apply Forall_app; split; [done|by repeat constructor]).
  rewrite rtrim_snoc. change (isspace NL) with true. cbv iota. by apply rtrim_fixed.
Qed.

Lemma add_all_texts ss : ∀ l,
  dense l → Forall (λ s, s ≠ []) ss → texts (add_all l ss) = texts l ++ ss.
Proof.
  induction ss as [|s ss IH]; intros l Hd Hss; [by rewrite app_nil_r|].
  apply Forall_cons in Hss as [Hs Hss]. destruct s as [|c s]; [done|].
  change (add_all l ((c :: s) :: ss)) with (add_all (add_item l (Some (c :: s))) ss).
  rewrite IH, add_item_texts by (done || by apply add_item_dense).
  by rewrite <- app_assoc.
Qed.

Lemma dialogue_cons t ts :
  dialogue (t :: ts) = t ++ NL :: (lit "y" ++ NL :: dialogue ts).
Proof. unfold dialogue. simpl. by rewrite <- !app_assoc. Qed.

Lemma interact_dialogue ts : ∀ l w,
  Forall plain_item ts →
  ∃ w', interact AwaitingItem (dialogue ts) l w = Done (add_all l ts) w' ∧
        w_fs w' = w_fs w ∧ w_stderr w' = w_stderr w.
Proof.
  induction ts as [|t ts IH]; intros l w Hts.
  - eexists. split; [by rewrite interact_item_eq|done].
  - apply Forall_cons in Hts as [(Hst & Hlen & Hcmd) Hts].
    destruct (read_line t (lit "y" ++ NL :: dialogue ts) Hst Hlen) as [Hget Htrim].
    pose proof Hst as (_ & _ & Hend & _).
    destruct (ends_in_text_cons t Hend) as (c & t' & Ht).
    rewrite dialogue_cons.
    rewrite (interact_item_add _ (t ++ [NL]) (lit "y" ++ NL :: dialogue ts) c t');
      [|done|by rewrite Htrim|].
    2: { intros ->. rewrite Ht in Hcmd. discriminate Hcmd. }
    rewrite (interact_confirm_yes _ (lit "y" ++ [NL]) (dialogue ts));
      [|apply fgets_line; [by_decision|simpl; lia]|done].
    rewrite <- Ht.
    destruct (IH (add_item l (Some t))
                (print confirm_prompt
                   (print (lit "Added: " ++ t ++ [NL]) (print item_prompt w))) Hts)
      as (w' & Hrun & Hfs & Herr).
    exists w'. split; [exact Hrun|]. by rewrite Hfs, Herr.
Qed.

(** X20. A user who types items one per line and answers y after each
    gets exactly those items, in the order typed: if every line is an
    item as it can be typed (no NUL, no newline, not ending in white
    space, shorter than the buffer, not starting with '/'), the dialogue
    ends at the end of input with the old items followed by the typed
    ones, no file is touched, and [main] started on that input returns 0
    after printing the final list of the typed items. *)
Theorem dialogue_builds_the_list (l : ShoppingList) (w : World) (fs : FileSystem)
    (ts : list (list ascii)) :
  dense l → Forall plain_item ts →
  (∃ w', interact AwaitingItem (dialogue ts) l w = Done (add_all l ts) w' ∧
         w_fs w' = w_fs w) ∧
  texts (add_all l ts) = texts l ++ ts ∧
  (∃ w', main (dialogue ts) fs
         = (0%Z, print_list (add_all create_list ts) (print final_header w'))) ∧
  texts (add_all create_list ts) = ts.
Proof.
  intros Hd Hts.
  assert (Hne : Forall (λ s : list ascii, s ≠ []) ts).
  { eapply Forall_impl; [exact Hts|]. intros t ((_ & _ & Hend & _) & _) ->.
    discriminate Hend. }
  split; [|split; [by apply add_all_texts|split; [|by apply add_all_texts, Hne; apply create_list_dense]]].
  - destruct (interact_dialogue ts l w Hts) as (w' & Hrun & Hfs & _). by exists w'.
  - destruct (interact_dialogue ts create_list
                (print banner {| w_stdout := []; w_stderr := []; w_fs := fs |}) Hts)
      as (w' & Hrun & _).
    exists w'. unfold main. cbv zeta. by rewrite Hrun.
Qed.

Lemma dialogue_builds_the_list_witness :
  dense create_list ∧ Forall plain_item [lit "milk"; lit "brown eggs"] ∧
  texts (add_all create_list [lit "milk"; lit "brown eggs"])
  = [lit "milk"; lit "brown eggs"] ∧
  ∃ w', main (dialogue [lit "milk"; lit "brown eggs"]) empty_fs
        = (0%Z, print_list (add_all create_list [lit "milk"; lit "brown eggs"])
                  (print final_header w')).
Proof.
  assert (Hd : dense create_list) by by_decision.
  assert (Hts : Forall plain_item [lit "milk"; lit "brown eggs"]) by by_decision.
  destruct (dialogue_builds_the_list create_list quiet empty_fs _ Hd Hts)
    as (_ & _ & Hmain & Htexts).
  split; [exact Hd|]. split; [exact Hts|]. split; [exact Htexts|exact Hmain].
Defined.
